(** * Pac-Watch: a shallow embedding of [main.py]

    The bot loads a record store from a blob store, trims it to a retention
    window, pulls the latest independent expenditures from a feed, keeps the
    ones it has not seen, writes the store back, and tweets one message per
    grouped new contribution.

    Conventions of the embedding.
    - Python [str] values are [string]s of 8-bit characters; [len] is
      [String.length], and [lower] changes the letters A to Z only.
    - Amounts are integers ([Z]); [int(amount)] is then the identity.
    - A nullable cell of a dataframe is an [option]: [None] is [NA]/[NaN]/[NaT].
    - A datetime is a [Z] (microseconds since the epoch), and the clock is
      read as one instant per run.
    - The record store holds typed rows: what [to_csv] wrote is what
      [read_csv] and the date conversion of the store give back.
    - The two pandas conversions of the feed, [pd.to_numeric] and
      [pd.to_datetime], are parameters of the development.
    - A function that may raise returns a [result]; the orchestration code
      runs in a state-and-exception monad over the external world, whose
      services (blob store, feed, notification channel) answer as an [Env]
      says and whose calls are recorded in a trace. Credentials, client
      construction and the [verbose] prints are left out. *)

From Stdlib Require Import ZArith Ascii DecimalString List.
From Stdlib Require OrdersEx.
From stdpp Require Import gmap strings sorting.

(** ** Exceptions and results *)

Inductive exn : Type :=
| ClientError (code : string)   (* botocore.exceptions.ClientError, with its error code *)
| BotoCoreError                 (* a botocore error that is not a ClientError *)
| ParserError                   (* pandas could not read the CSV body *)
| KeyError
| ValueError
| IndexError
| UnboundLocalError.

Inductive result (A : Type) : Type :=
| Ok (a : A)
| Raise (e : exn).
Arguments Ok {A} a.
Arguments Raise {A} e.

Definition rbind {A B} (r : result A) (k : A -> result B) : result B :=
  match r with
  | Ok a => k a
  | Raise e => Raise e
  end.

#[global] Instance result_ret : MRet result := fun A a => Ok a.
#[global] Instance result_bind : MBind result := fun A B k r => rbind r k.

(** ** Python string operations used by the renderer *)

Module Str.

Definition len (s : string) : Z := Z.of_nat (String.length s).

Fixpoint startswith (p s : string) : bool :=
  match p, s with
  | EmptyString, _ => true
  | String a p', String b s' => if Ascii.eqb a b then startswith p' s' else false
  | String _ _, EmptyString => false
  end.

(** [sub in s] *)
Fixpoint contains (sub s : string) : bool :=
  startswith sub s ||
  match s with
  | EmptyString => false
  | String _ s' => contains sub s'
  end.

(** [s.replace(old, new)] for a non-empty [old]: leftmost, non-overlapping
    occurrences. [skip] counts the characters of a matched occurrence that
    are still to be passed over. *)
Fixpoint replace_from (old new : string) (skip : nat) (s : string) : string :=
  match s with
  | EmptyString => EmptyString
  | String c s' =>
      match skip with
      | S k => replace_from old new k s'
      | O =>
          if startswith old s
          then new +:+ replace_from old new (String.length old - 1) s'
          else String c (replace_from old new 0 s')
      end
  end.

Definition replace (old new s : string) : string := replace_from old new 0 s.

Definition lower_char (c : ascii) : ascii :=
  let n := nat_of_ascii c in
  if (65 <=? n)%nat && (n <=? 90)%nat then ascii_of_nat (n + 32) else c.

(** [s.lower()] *)
Fixpoint lower (s : string) : string :=
  match s with
  | EmptyString => EmptyString
  | String c s' => String (lower_char c) (lower s')
  end.

(** [s.split(sep)] for a non-empty [sep]; [cur] is the part being read,
    reversed. *)
Fixpoint split_from (sep : string) (skip : nat) (cur : string) (s : string)
  : list string :=
  match s with
  | EmptyString => [String.rev cur]
  | String c s' =>
      match skip with
      | S k => split_from sep k cur s'
      | O =>
          if startswith sep s
          then String.rev cur :: split_from sep (String.length sep - 1) EmptyString s'
          else split_from sep 0 (String c cur) s'
      end
  end.

Definition split (sep s : string) : list string := split_from sep 0 EmptyString s.

(** [s[:k]]: a negative [k] counts from the end. *)
Definition slice_to (s : string) (k : Z) : string :=
  if (0 <=? k)%Z then String.substring 0 (Z.to_nat k) s
  else String.substring 0 (Z.to_nat (len s + k)) s.

(** [s[:-1]] *)
Definition drop_last (s : string) : string := slice_to s (-1).

(** [str(n)] for an integer [n] *)
Definition of_int (n : Z) : string := NilZero.string_of_int (Z.to_int n).

Fixpoint insert_commas (digits : string) : string :=
  match digits with
  | EmptyString => EmptyString
  | String c rest =>
      let n := String.length rest in
      String c (if (0 <? n)%nat && (n mod 3 =? 0)%nat
                then String "," (insert_commas rest)
                else insert_commas rest)
  end.

(** ['{:,}'.format(n)] for an integer [n] *)
Definition format_thousands (n : Z) : string :=
  if (n <? 0)%Z then "-" +:+ insert_commas (of_int (- n))
  else insert_commas (of_int n).

End Str.

(** ** The message renderer *)

(** One row of the grouped new contributions, as [get_tweet_body] reads it.
    [groupby] has already dropped the rows with a null group column, so every
    text column holds a string. *)
Record Row : Type := {
  row_pacshort : string;
  row_suppopp : string;
  row_candname : string;
  row_district : string;
  row_party : string;
  row_note : string;
  row_amount : Z
}.

Definition default_char_limit : Z := 280.

(** The five replacements of [get_tweet_body], each behind its [in] test. *)
Definition escape_suffix (suffix replacement pac : string) : string :=
  if Str.contains suffix pac then Str.replace suffix replacement pac else pac.

Definition escape_pac (pac : string) : string :=
  let pac := escape_suffix ".com" " dot com" pac in
  let pac := escape_suffix ".org" " dot org" pac in
  let pac := escape_suffix ".gov" " dot gov" pac in
  let pac := escape_suffix ".net" " dot net" pac in
  escape_suffix ".edu" " dot edu" pac.

Definition primary_sentence (pac amount_str purpose suppopp firstname lastname
                             party district_string : string) : string :=
  pac +:+ " spends $" +:+ amount_str +:+ " on " +:+ purpose +:+ " " +:+ suppopp
      +:+ " " +:+ firstname +:+ " " +:+ lastname
      +:+ " (" +:+ party +:+ district_string +:+ ").".

Definition short_sentence (pac amount_str suppopp firstname lastname
                           party district_string : string) : string :=
  pac +:+ " spends $" +:+ amount_str +:+ " " +:+ suppopp
      +:+ " " +:+ firstname +:+ " " +:+ lastname
      +:+ " (" +:+ party +:+ district_string +:+ ").".

Definition newline : string := String (ascii_of_nat 10) EmptyString.

Definition cumulative_clause (record_amount suppopp lastname time_string : string)
  : string :=
  newline +:+ newline +:+ "They have now spent $" +:+ record_amount +:+ " "
          +:+ suppopp +:+ " " +:+ lastname +:+ " in the past " +:+ time_string +:+ ".".

(** [get_tweet_body(row, sum_prev_contribution, n_prev_days, char_limit)].
    The locals [time_string] and [record_amount] are bound only inside the
    first [if]; [bound] carries them, and reading them while unbound raises. *)
Definition get_tweet_body (row : Row) (sum_prev_contribution : option Z)
    (n_prev_days : Z) (char_limit : Z) : result string :=
  let pac := escape_pac (row_pacshort row) in
  let amount := row_amount row in
  let amount_str := Str.format_thousands amount in
  let purpose := Str.lower (row_note row) in
  let suppopp := Str.lower (Str.drop_last (row_suppopp row)) in
  let parts := Str.split ", " (row_candname row) in
  firstname ← match nth_error parts 1 with
              | Some x => Ok x
              | None => Raise IndexError
              end;
  let lastname := nth 0 parts EmptyString in
  third ← match String.get 2 (row_district row) with
          | Some c => Ok c
          | None => Raise IndexError
          end;
   let district := if Ascii.eqb third "S" then Str.slice_to (row_district row) 2
                   else row_district row in
   let district_string := "-" +:+ district in
   let body := primary_sentence pac amount_str purpose suppopp firstname
                 lastname (row_party row) district_string in
   let '(body, bound) :=
     match sum_prev_contribution with
     | Some s =>
         if (amount <? s)%Z
         then
           let time_string := Str.of_int n_prev_days +:+ " days" in
           let record_amount := Str.format_thousands s in
           (body +:+ cumulative_clause record_amount suppopp lastname time_string,
            Some (record_amount, time_string))
         else (body, None)
     | None => (body, None)
     end in
   body ←
     (if (char_limit <? Str.len body)%Z
     then
       let body := short_sentence pac amount_str suppopp firstname lastname
                     (row_party row) district_string in
       match sum_prev_contribution with
       | Some _ =>
           match bound with
           | Some (record_amount, time_string) =>
               Ok (body +:+ cumulative_clause record_amount suppopp lastname time_string)
           | None => Raise UnboundLocalError
           end
       | None => Ok body
       end
     else Ok body);
   let body := if (char_limit <? Str.len body)%Z then Str.slice_to body char_limit
               else body in
   Ok body.

(** ** Contribution records *)

(** The twelve columns a feed entry brings. The type of the [amount] and
    [date] cells changes along [get_latest_data], hence the two parameters. *)
Record Cells (A D : Type) : Type := {
  cmteid : option string;
  pacshort : option string;
  suppopp : option string;
  candname : option string;
  district : option string;
  amount : A;
  note : option string;
  party : option string;
  payee : option string;
  date : D;
  origin : option string;
  source : option string
}.
Arguments cmteid {A D} _.
Arguments pacshort {A D} _.
Arguments suppopp {A D} _.
Arguments candname {A D} _.
Arguments district {A D} _.
Arguments amount {A D} _.
Arguments note {A D} _.
Arguments party {A D} _.
Arguments payee {A D} _.
Arguments date {A D} _.
Arguments origin {A D} _.
Arguments source {A D} _.

(** A feed entry: the attribute bag under ['@attributes'], all strings. *)
Record RawEntry : Type := {
  a_cmteid : string;
  a_pacshort : string;
  a_suppopp : string;
  a_candname : string;
  a_district : string;
  a_amount : string;
  a_note : string;
  a_party : string;
  a_payee : string;
  a_date : string;
  a_origin : string;
  a_source : string
}.

(** The feed-sourced fields of a typed record. *)
Abbreviation Fields := (Cells Z (option Z)).

(** A row of the record store: the feed-sourced fields and the ingestion
    timestamp (the clock reading whose text the file holds; [None] where the
    column is absent or empty). *)
Record Contribution : Type := {
  fields : Fields;
  timestamp : option Z
}.

#[global] Instance Fields_eq_dec : EqDecision Fields.
Proof. solve_decision. Defined.

#[global] Instance Contribution_eq_dec : EqDecision Contribution.
Proof. solve_decision. Defined.

(** ** Normalisation of the feed *)

(** What the regular expression class [\s] matches. *)
Definition is_space (c : ascii) : bool :=
  let n := nat_of_ascii c in
  ((9 <=? n)%nat && (n <=? 13)%nat) || ((28 <=? n)%nat && (n <=? 32)%nat).

(** A match of [^\s*$]. *)
Fixpoint is_blank (s : string) : bool :=
  match s with
  | EmptyString => true
  | String c s' => is_space c && is_blank s'
  end.

(** [replace(r'^\s*$', pd.NA, regex=True)] on one cell *)
Definition blank_to_na (s : string) : option string :=
  if is_blank s then None else Some s.

Definition cells_of_entry (e : RawEntry) : Cells (option string) (option string) :=
  {| cmteid := blank_to_na (a_cmteid e);
     pacshort := blank_to_na (a_pacshort e);
     suppopp := blank_to_na (a_suppopp e);
     candname := blank_to_na (a_candname e);
     district := blank_to_na (a_district e);
     amount := blank_to_na (a_amount e);
     note := blank_to_na (a_note e);
     party := blank_to_na (a_party e);
     payee := blank_to_na (a_payee e);
     date := blank_to_na (a_date e);
     origin := blank_to_na (a_origin e);
     source := blank_to_na (a_source e) |}.

(** The test of [dropna(subset=key_columns)]; a kept row carries its amount
    text. *)
Definition keep_key_columns {D} (c : Cells (option string) D)
  : option (Cells string D) :=
  match pacshort c, suppopp c, candname c, amount c with
  | Some _, Some _, Some _, Some a =>
      Some {| cmteid := cmteid c; pacshort := pacshort c; suppopp := suppopp c;
              candname := candname c; district := district c; amount := a;
              note := note c; party := party c; payee := payee c;
              date := date c; origin := origin c; source := source c |}
  | _, _, _, _ => None
  end.

(** [dropna(subset=key_columns)] *)
Definition dropna_key_columns {D} (df : list (Cells (option string) D))
  : list (Cells string D) :=
  omap keep_key_columns df.

Definition set_amount {A A' D} (c : Cells A D) (a : A') : Cells A' D :=
  {| cmteid := cmteid c; pacshort := pacshort c; suppopp := suppopp c;
     candname := candname c; district := district c; amount := a;
     note := note c; party := party c; payee := payee c;
     date := date c; origin := origin c; source := source c |}.

Definition set_date {A D D'} (c : Cells A D) (d : D') : Cells A D' :=
  {| cmteid := cmteid c; pacshort := pacshort c; suppopp := suppopp c;
     candname := candname c; district := district c; amount := amount c;
     note := note c; party := party c; payee := payee c;
     date := d; origin := origin c; source := source c |}.

(** A column conversion: the first cell that fails raises for the column. *)
Fixpoint convert_column {X Y} (f : X -> result Y) (rows : list X) : result (list Y) :=
  match rows with
  | [] => Ok []
  | x :: rows' =>
      y ← f x;
      ys ← convert_column f rows';
      Ok (y :: ys)
  end.

Section Normalize.

(** The two pandas conversions on one cell: [None] where pandas raises. *)
Variable to_numeric : string -> option Z.
Variable to_datetime : string -> option Z.

Definition amount_to_numeric {D} (c : Cells string D) : result (Cells Z D) :=
  match to_numeric (amount c) with
  | Some a => Ok (set_amount c a)
  | None => Raise ValueError
  end.

Definition date_to_datetime {A} (c : Cells A (option string))
  : result (Cells A (option Z)) :=
  match date c with
  | None => Ok (set_date c None)
  | Some s =>
      match to_datetime s with
      | Some d => Ok (set_date c (Some d))
      | None => Raise ValueError
      end
  end.

(** Lines 150-160 of [get_latest_data]: the typed frame of the feed. An
    empty entry list gives a frame without columns, and [dropna] raises on
    the missing key columns. *)
Definition normalize (entries : list RawEntry) : result (list Fields) :=
  match entries with
  | [] => Raise KeyError
  | _ =>
      let latest_df := map cells_of_entry entries in
      let latest_df := dropna_key_columns latest_df in
      latest_df ← convert_column amount_to_numeric latest_df;
      convert_column date_to_datetime latest_df
  end.

End Normalize.

(** ** Deduplication *)

Inductive Indicator : Type := left_only | both.

(** [left.merge(right, how='left', indicator=True)]: the join is on the
    columns the two frames share, which are the feed-sourced ones. *)
Definition merge_left (latest_df : list Fields) (records_df : list Contribution)
  : list (Contribution * Indicator) :=
  flat_map (fun l =>
    match filter (fun r => fields r = l) records_df with
    | [] => [({| fields := l; timestamp := None |}, left_only)]
    | matches => map (fun r => ({| fields := l; timestamp := timestamp r |}, both)) matches
    end) latest_df.

Definition is_left_only (x : Contribution * Indicator) : bool :=
  match snd x with left_only => true | both => false end.

(** The order of [sort_values(by=["date","amount"], ascending=[True, False])];
    a missing date goes last. *)
Definition sort_before (a b : Contribution) : bool :=
  match date (fields a), date (fields b) with
  | Some x, Some y =>
      (x <? y)%Z || ((x =? y)%Z && (amount (fields b) <=? amount (fields a))%Z)
  | Some _, None => true
  | None, Some _ => false
  | None, None => (amount (fields b) <=? amount (fields a))%Z
  end.

Fixpoint sort_insert (x : Contribution) (l : list Contribution) : list Contribution :=
  match l with
  | [] => [x]
  | y :: l' => if sort_before x y then x :: l else y :: sort_insert x l'
  end.

Definition sort_values (l : list Contribution) : list Contribution :=
  foldr sort_insert [] l.

Definition set_timestamp (t : Z) (c : Contribution) : Contribution :=
  {| fields := fields c; timestamp := Some t |}.

(** Lines 162-173 of [get_latest_data]. *)
Definition new_contributions (now : Z) (latest_df : list Fields)
    (records_df : list Contribution) : list Contribution :=
  let merged_df := merge_left latest_df records_df in
  let new_df := map fst (filter is_left_only merged_df) in
  if (0 <? length new_df)%nat
  then sort_values (map (set_timestamp now) new_df)
  else new_df.

(** ** Aggregation *)

Definition lex (c1 c2 : comparison) : comparison :=
  match c1 with
  | Eq => c2
  | _ => c1
  end.

Section GroupBy.

Context {K : Type} (compare : K -> K -> comparison).

(** Groups are kept sorted by key, as [groupby] sorts them. *)
Fixpoint add_to_group (k : K) (a : Z) (groups : list (K * Z)) : list (K * Z) :=
  match groups with
  | [] => [(k, a)]
  | (k', s) :: groups' =>
      match compare k k' with
      | Eq => (k', (s + a)%Z) :: groups'
      | Lt => (k, a) :: groups
      | Gt => (k', s) :: add_to_group k a groups'
      end
  end.

(** [df.groupby(cols, as_index=False)["amount"].sum()]: [key] reads the
    group columns of a row and is [None] when one of them is null, in which
    case [groupby] leaves the row out. *)
Definition groupby_sum (key : Contribution -> option K) (df : list Contribution)
  : list (K * Z) :=
  fold_left (fun groups r =>
               match key r with
               | Some k => add_to_group k (amount (fields r)) groups
               | None => groups
               end) df [].

End GroupBy.

(** ["pacshort","suppopp","candname","district","party"] *)
Definition Key5 : Type := string * string * string * string * string.
(** the same and ["note"] *)
Definition Key6 : Type := Key5 * string.

Definition compare5 (a b : Key5) : comparison :=
  let '(a1, a2, a3, a4, a5) := a in
  let '(b1, b2, b3, b4, b5) := b in
  lex (String.compare a1 b1) (lex (String.compare a2 b2)
    (lex (String.compare a3 b3) (lex (String.compare a4 b4) (String.compare a5 b5)))).

Definition compare6 (a b : Key6) : comparison :=
  lex (compare5 (fst a) (fst b)) (String.compare (snd a) (snd b)).

Definition group_cols (r : Contribution) : option Key5 :=
  let c := fields r in
  match pacshort c, suppopp c, candname c, district c, party c with
  | Some p, Some s, Some n, Some d, Some q => Some (p, s, n, d, q)
  | _, _, _, _, _ => None
  end.

Definition group_cols_note (r : Contribution) : option Key6 :=
  match group_cols r, note (fields r) with
  | Some k, Some n => Some (k, n)
  | _, _ => None
  end.

Definition row_of_group (g : Key6 * Z) : Row :=
  let '((p, s, n, d, q, purpose), a) := g in
  {| row_pacshort := p; row_suppopp := s; row_candname := n; row_district := d;
     row_party := q; row_note := purpose; row_amount := a |}.

Definition grouped_records (records_df : list Contribution) : list (Key5 * Z) :=
  groupby_sum compare5 group_cols records_df.

Definition grouped_latest (latest_df : list Contribution) : list Row :=
  map row_of_group (groupby_sum compare6 group_cols_note latest_df).

(** The rows of [grouped_records_df] that agree with [row] on contributor,
    stance and recipient. *)
Definition match_row (grouped_records_df : list (Key5 * Z)) (row : Row)
  : list (Key5 * Z) :=
  filter (fun g : Key5 * Z =>
            let '(p, s, n, _, _) := fst g in
            bool_decide (p = row_pacshort row) && bool_decide (s = row_suppopp row)
            && bool_decide (n = row_candname row)) grouped_records_df.

(** ** Retention *)

Definition microseconds_per_day : Z := 86400000000.

(** [datetime.timedelta(days=n)] *)
Definition timedelta_days (n : Z) : Z := (n * microseconds_per_day)%Z.

(** [df['date'] >= date_cutoff] on one row; a missing date compares false. *)
Definition date_ge (date_cutoff : Z) (r : Contribution) : bool :=
  match date (fields r) with
  | Some d => (date_cutoff <=? d)%Z
  | None => false
  end.

(** Lines 291-295 of [main]; the store's dates are already typed. *)
Definition trim_records (now n_prev_days : Z) (records_df : list Contribution)
  : list Contribution :=
  if (0 <? length records_df)%nat
  then
    let date_cutoff := (now - timedelta_days n_prev_days)%Z in
    filter (date_ge date_cutoff) records_df
  else records_df.

(** ** The external world *)

(** What a blob of the store holds: the table [to_csv] wrote, or bytes that
    [read_csv] cannot read. *)
Inductive S3Object : Type :=
| CsvBody (rows : list Contribution)
| OtherBody (bytes : string).

(** What [response.json()] gave: a JSON value that is not an object, or an
    object; [entries] is [None] when the path
    [['response']['indexp'][i]['@attributes']] is not there, a key of it
    being absent from the object it is looked up in. An object in which the
    path meets a value that is no object or list of objects, where the code
    raises another exception, is not among the payloads. *)
Inductive Payload : Type :=
| JsonNonDict
| JsonDict (entries : option (list RawEntry)).

(** What the code does to the world; a state holds these latest first. *)
Inductive Event : Type :=
| EvGetObject (bucket key : string)
| EvPutObject (bucket key : string) (rows : list Contribution)
| EvHttpGet
| EvSleep (secs : Z)
| EvCreateTweet (text : string) (delivered : bool)
| EvCouldNotProcess (i : nat) (row : Row).

(** The behaviour of the services during one run. *)
Record Env : Type := {
  s3_get_fault : option exn;            (* the error [get_object] meets, if any *)
  s3_put_fault : option exn;            (* the error [put_object] meets, if any *)
  http_response : nat -> option Payload; (* the n-th GET; [None] on a request error *)
  create_tweet : nat -> string -> bool; (* whether the n-th [create_tweet] goes through *)
  now : Z                               (* [datetime.datetime.now()] *)
}.

Record State : Type := {
  s3_objects : gmap (string * string) S3Object;
  http_calls : nat;
  tweet_calls : nat;
  trace : list Event   (* latest event first *)
}.

Definition M (A : Type) : Type := State -> result A * State.

#[global] Instance M_ret : MRet M := fun A a st => (Ok a, st).
#[global] Instance M_bind : MBind M := fun A B k m st =>
  match m st with
  | (Ok a, st') => k a st'
  | (Raise e, st') => (Raise e, st')
  end.

Definition raise {A} (e : exn) : M A := fun st => (Raise e, st).

Definition lift {A} (r : result A) : M A := fun st => (r, st).

Definition record_event (ev : Event) (st : State) : State :=
  {| s3_objects := s3_objects st; http_calls := http_calls st;
     tweet_calls := tweet_calls st; trace := ev :: trace st |}.

Definition log (ev : Event) : M unit := fun st => (Ok tt, record_event ev st).

(** [try: body except <handles>: handler] *)
Definition try_except {A} (body : M A) (handles : exn -> bool) (handler : M A) : M A :=
  fun st =>
    match body st with
    | (Ok a, st') => (Ok a, st')
    | (Raise e, st') => if handles e then handler st' else (Raise e, st')
    end.

Definition sleep (secs : Z) : M unit := log (EvSleep secs).

Definition is_client_error (e : exn) : bool :=
  match e with
  | ClientError _ => true
  | _ => false
  end.

Section Run.

Variable to_numeric : string -> option Z.
Variable to_datetime : string -> option Z.
Variable env : Env.

(** *** The record store *)

Definition initialize_records : list Contribution := [].

(** [s3.get_object(Bucket=..., Key=...)] *)
Definition fetch_object (bucket_name file_name : string) : M S3Object := fun st =>
  match s3_get_fault env with
  | Some e => (Raise e, st)
  | None =>
      match s3_objects st !! (bucket_name, file_name) with
      | Some obj => (Ok obj, st)
      | None => (Raise (ClientError "NoSuchKey"), st)
      end
  end.

Definition get_object (bucket_name file_name : string) : M S3Object :=
  _ ← log (EvGetObject bucket_name file_name);
  fetch_object bucket_name file_name.

(** [pd.read_csv(io.BytesIO(obj['Body'].read()))] *)
Definition read_csv (obj : S3Object) : result (list Contribution) :=
  match obj with
  | CsvBody rows => Ok rows
  | OtherBody _ => Raise ParserError
  end.

Definition get_records (bucket_name file_name : string) : M (list Contribution) :=
  try_except
    (obj ← get_object bucket_name file_name;
     lift (read_csv obj))
    is_client_error
    (mret initialize_records).

(** [s3.put_object(Bucket=..., Key=..., Body=to_csv(records_df))] *)
Definition store_object (bucket_name file_name : string) (obj : S3Object) : M unit :=
  fun st =>
    match s3_put_fault env with
    | Some e => (Raise e, st)
    | None =>
        (Ok tt, {| s3_objects := <[(bucket_name, file_name) := obj]> (s3_objects st);
                   http_calls := http_calls st; tweet_calls := tweet_calls st;
                   trace := trace st |})
    end.

Definition write_records (records_df : list Contribution)
    (bucket_name file_name : string) : M unit :=
  _ ← log (EvPutObject bucket_name file_name records_df);
  store_object bucket_name file_name (CsvBody records_df).

(** *** The feed *)

Definition get_check_errors : M (option Payload) := fun st =>
  (Ok (http_response env (http_calls st)),
   {| s3_objects := s3_objects st; http_calls := S (http_calls st);
      tweet_calls := tweet_calls st; trace := EvHttpGet :: trace st |}).

(** The [for _ in range(k)] loop of [get_json]. *)
Fixpoint get_json_loop (wait_time : Z) (k : nat) (data : option Payload)
  : M (option Payload) :=
  match k with
  | O => mret data
  | S k' =>
      match data with
      | Some _ => mret data
      | None =>
          _ ← sleep wait_time;
          data ← get_check_errors;
          get_json_loop wait_time k' data
      end
  end.

Definition get_json (n_retries : nat) (wait_time : Z) : M (option Payload) :=
  data ← get_check_errors;
  get_json_loop wait_time (n_retries - 1) data.

Definition get_latest_expenditures (n_retries : nat) : M (option Payload) :=
  get_json n_retries 1.

(** [None] is the [None] of the code: no usable data. *)
Definition get_latest_data (records_df : list Contribution) (n_retries : nat)
  : M (option (list Contribution)) :=
  latest_json ← get_latest_expenditures n_retries;
  match latest_json with
  | None => mret None
  | Some JsonNonDict => mret None
  | Some (JsonDict None) => raise KeyError
  | Some (JsonDict (Some entries)) =>
      latest_df ← lift (normalize to_numeric to_datetime entries);
      mret (Some (new_contributions (now env) latest_df records_df))
  end.

(** *** The notifier *)

(** One [client.create_tweet]; [true] stands for a tweet result. *)
Definition try_send_tweet (message : string) : M bool := fun st =>
  let delivered := create_tweet env (tweet_calls st) message in
  (Ok delivered,
   {| s3_objects := s3_objects st; http_calls := http_calls st;
      tweet_calls := S (tweet_calls st);
      trace := EvCreateTweet message delivered :: trace st |}).

(** The [while tweet_result is None] loop, entered after a failed attempt. *)
Fixpoint send_tweet_loop (message : string) (n_retries : nat) (wait_time : Z)
  : M bool :=
  match n_retries with
  | O => mret false
  | S k =>
      _ ← sleep wait_time;
      tweet_result ← try_send_tweet message;
      if tweet_result : bool then mret true
      else send_tweet_loop message k wait_time
  end.

Definition send_tweet (message : string) (n_retries : nat) (wait_time : Z)
  : M bool :=
  tweet_result ← try_send_tweet message;
  if tweet_result : bool then mret true
  else send_tweet_loop message n_retries wait_time.

(** *** Orchestration *)

Record Options : Type := {
  bucket_name : string;
  records_file_name : string;
  min_report_amt : Z;
  between_tweets_time : Z;
  n_prev_days : Z;
  tweet : bool;
  record : bool;
  report_sum_contributions : bool
}.

Variable opts : Options.

Definition sum_contribution_for (grouped_records_df : list (Key5 * Z)) (row : Row)
  : option Z :=
  if report_sum_contributions opts
  then match match_row grouped_records_df row with
       | g :: _ => Some (snd g)
       | [] => None
       end
  else None.

(** The body of the [for] loop for the row at index [i]. *)
Definition notify_row (grouped_records_df : list (Key5 * Z)) (i : nat) (row : Row)
  : M unit :=
  if (min_report_amt opts <=? row_amount row)%Z
  then
    let sum_contribution := sum_contribution_for grouped_records_df row in
    try_except
      (tweet_body ← lift (get_tweet_body row sum_contribution (n_prev_days opts)
                            default_char_limit);
       if tweet opts
       then
         _ ← send_tweet tweet_body 1 1;
         sleep (between_tweets_time opts)
       else mret tt)
      (fun _ => true)
      (log (EvCouldNotProcess i row))
  else mret tt.

Fixpoint notify_loop (grouped_records_df : list (Key5 * Z)) (i : nat)
    (rows : list Row) : M unit :=
  match rows with
  | [] => mret tt
  | row :: rows' =>
      _ ← notify_row grouped_records_df i row;
      notify_loop grouped_records_df (S i) rows'
  end.

(** [main]; the result is its return value. *)
Definition main : M Z :=
  records_df ← get_records (bucket_name opts) (records_file_name opts);
  let records_df := trim_records (now env) (n_prev_days opts) records_df in
  latest_df ← get_latest_data records_df 10;
  match latest_df with
  | None => mret 1%Z
  | Some latest_df =>
      let records_df := if record opts then records_df ++ latest_df else records_df in
      _ ← write_records records_df (bucket_name opts) (records_file_name opts);
      let grouped_records_df := grouped_records records_df in
      let grouped_latest_df := grouped_latest latest_df in
      _ ← notify_loop grouped_records_df 0 grouped_latest_df;
      mret 0%Z
  end.

End Run.

Definition default_options : Options :=
  {| bucket_name := "pac-watch-records"; records_file_name := "records.csv";
     min_report_amt := 0; between_tweets_time := 5; n_prev_days := 30;
     tweet := true; record := true; report_sum_contributions := true |}.

(** ** Concrete conversions and worlds for the worked runs *)

Module Reference.

Definition digit_of (c : ascii) : option Z :=
  let n := nat_of_ascii c in
  if (48 <=? n)%nat && (n <=? 57)%nat then Some (Z.of_nat (n - 48)) else None.

Fixpoint digits_value (acc : Z) (s : string) : option Z :=
  match s with
  | EmptyString => Some acc
  | String c s' =>
      match digit_of c with
      | Some d => digits_value (10 * acc + d)%Z s'
      | None => None
      end
  end.

(** Decimal integers, with an optional minus sign: texts on which
    [pd.to_numeric] gives that integer. Texts without a digit, such as
    ["abc"], are refused, as [pd.to_numeric] refuses them. *)
Definition decimal_amount (s : string) : option Z :=
  match s with
  | EmptyString => None
  | String "-" EmptyString => None
  | String "-" s' => Z.opp <$> digits_value 0 s'
  | _ => digits_value 0 s
  end.

Definition is_leap (y : Z) : bool :=
  ((y mod 4 =? 0) && negb (y mod 100 =? 0) || (y mod 400 =? 0))%Z.

Definition days_in_month (y m : Z) : Z :=
  if (m =? 2)%Z then (if is_leap y then 29 else 28)
  else if ((m =? 4) || (m =? 6) || (m =? 9) || (m =? 11))%Z then 30 else 31.

(** Days from 1970-01-01 to the civil date [y]-[m]-[d]. *)
Definition days_from_civil (y m d : Z) : Z :=
  let y' := (if m <=? 2 then y - 1 else y)%Z in
  let era := (y' / 400)%Z in
  let yoe := (y' - era * 400)%Z in
  let mp := (if 2 <? m then m - 3 else m + 9)%Z in
  let doy := ((153 * mp + 2) / 5 + d - 1)%Z in
  let doe := (yoe * 365 + yoe / 4 - yoe / 100 + doy)%Z in
  (era * 146097 + doe - 719468)%Z.

(** Dates written [YYYY-MM-DD]: texts on which [pd.to_datetime] gives
    midnight of that day. *)
Definition iso_date (s : string) : option Z :=
  if bool_decide (String.length s = 10%nat)
     && bool_decide (String.get 4 s = Some "-"%char)
     && bool_decide (String.get 7 s = Some "-"%char)
  then
    match digits_value 0 (String.substring 0 4 s),
          digits_value 0 (String.substring 5 2 s),
          digits_value 0 (String.substring 8 2 s) with
    | Some y, Some m, Some d =>
        if ((1 <=? m) && (m <=? 12) && (1 <=? d) && (d <=? days_in_month y m))%Z
        then Some (days_from_civil y m d * microseconds_per_day)%Z
        else None
    | _, _, _ => None
    end
  else None.

Definition entry (pac stance cand dist amt purpose pty day : string) : RawEntry :=
  {| a_cmteid := "C00000001"; a_pacshort := pac; a_suppopp := stance;
     a_candname := cand; a_district := dist; a_amount := amt; a_note := purpose;
     a_party := pty; a_payee := "Media Buyer LLC"; a_date := day;
     a_origin := "FEC"; a_source := "https://www.fec.gov/" |}.

Definition acme : RawEntry :=
  entry "Acme.com PAC" "Supports" "Smith, John" "CAS1" "5000" "TV Ads" "D" "2024-03-01".

Definition zenith : RawEntry :=
  entry "Zenith Fund" "Opposes" "Jones, Mary" "TX07" "1200" "Mailers" "R" "2024-03-02".

(** 2024-03-10 00:00:00 *)
Definition march_10 : Z := (days_from_civil 2024 3 10 * microseconds_per_day)%Z.

Definition world (get_fault put_fault : option exn) (feed : nat -> option Payload)
    (twitter : nat -> string -> bool) : Env :=
  {| s3_get_fault := get_fault; s3_put_fault := put_fault;
     http_response := feed; create_tweet := twitter; now := march_10 |}.

Definition start (objects : gmap (string * string) S3Object) : State :=
  {| s3_objects := objects; http_calls := 0; tweet_calls := 0; trace := [] |}.

Definition run (e : Env) (o : Options) (st : State) : result Z * State :=
  main decimal_amount iso_date e o st.

Definition store_key : string * string := ("pac-watch-records", "records.csv").

(** An entry whose amount is not a number. *)
Definition garbled : RawEntry :=
  entry "Zenith Fund" "Opposes" "Jones, Mary" "TX07" "abc" "Mailers" "R" "2024-03-02".

(** An entry with its date left blank. *)
Definition undated : RawEntry :=
  entry "Zenith Fund" "Opposes" "Jones, Mary" "TX07" "1200" "Mailers" "R" "".

Definition fields_of (pac stance cand dist : string) (amt : Z) (purpose pty : string)
    (day : option Z) : Fields :=
  {| cmteid := Some "C00000001"; pacshort := Some pac; suppopp := Some stance;
     candname := Some cand; district := Some dist; amount := amt;
     note := Some purpose; party := Some pty; payee := Some "Media Buyer LLC";
     date := day; origin := Some "FEC"; source := Some "https://www.fec.gov/" |}.

Definition acme_fields : Fields :=
  fields_of "Acme.com PAC" "Supports" "Smith, John" "CAS1" 5000 "TV Ads" "D"
    (iso_date "2024-03-01").

Definition zenith_fields : Fields :=
  fields_of "Zenith Fund" "Opposes" "Jones, Mary" "TX07" 1200 "Mailers" "R"
    (iso_date "2024-03-02").

Definition undated_fields : Fields :=
  fields_of "Zenith Fund" "Opposes" "Jones, Mary" "TX07" 1200 "Mailers" "R" None.

(** 2024-03-05 00:00:00, an earlier run *)
Definition march_5 : Z := (days_from_civil 2024 3 5 * microseconds_per_day)%Z.

Definition stored (f : Fields) : Contribution :=
  {| fields := f; timestamp := Some march_5 |}.

Definition acme_row : Row :=
  {| row_pacshort := "Acme.com PAC"; row_suppopp := "Supports";
     row_candname := "Smith, John"; row_district := "CAS1"; row_party := "D";
     row_note := "TV Ads"; row_amount := 5000 |}.

(** A purpose note of 300 characters. *)
Definition long_note : string :=
  String.concat "" (replicate 30 "broadcast ").

Definition long_row : Row :=
  {| row_pacshort := "Acme.com PAC"; row_suppopp := "Supports";
     row_candname := "Smith, John"; row_district := "CAS1"; row_party := "D";
     row_note := long_note; row_amount := 5000 |}.

(** A row whose district code has two characters. *)
Definition short_district_row : Row :=
  {| row_pacshort := "Zenith Fund"; row_suppopp := "Opposes";
     row_candname := "Jones, Mary"; row_district := "TX"; row_party := "R";
     row_note := "Mailers"; row_amount := 1200 |}.

Definition feed_of (entries : list RawEntry) : nat -> option Payload :=
  fun _ => Some (JsonDict (Some entries)).

Definition other_key : string * string := ("pac-watch-records", "notes.txt").

(** A bucket with the store of an earlier run and one more object. *)
Definition bucket_with_history : gmap (string * string) S3Object :=
  <[store_key := CsvBody [stored acme_fields]]>
    (<[other_key := OtherBody "keep"]> ∅).

Definition record_off : Options :=
  {| bucket_name := "pac-watch-records"; records_file_name := "records.csv";
     min_report_amt := 0; between_tweets_time := 5; n_prev_days := 30;
     tweet := true; record := false; report_sum_contributions := true |}.

End Reference.

(** ** Auxiliary notions for the statements *)

(** Whether the character [d] occurs in [s]. *)
Fixpoint has_char (d : ascii) (s : string) : bool :=
  match s with
  | EmptyString => false
  | String c s' => Ascii.eqb d c || has_char d s'
  end.

(** The five domain suffixes the renderer escapes. *)
Definition domain_suffixes : list string := [".com"; ".org"; ".gov"; ".net"; ".edu"].

(** Each suffix with the text that takes its place. *)
Definition domain_escapes : list (string * string) :=
  [(".com", " dot com"); (".org", " dot org"); (".gov", " dot gov");
   (".net", " dot net"); (".edu", " dot edu")].

(** The last step of [get_tweet_body]. *)
Definition truncate (char_limit : Z) (body : string) : string :=
  if (char_limit <? Str.len body)%Z then Str.slice_to body char_limit else body.

(** The events of a state in the order they happened. *)
Definition history (st : State) : list Event := rev (trace st).

Definition is_put (ev : Event) : bool :=
  match ev with
  | EvPutObject _ _ _ => true
  | _ => false
  end.

Definition is_tweet (ev : Event) : bool :=
  match ev with
  | EvCreateTweet _ _ => true
  | _ => false
  end.

(** [r]'s date is strictly earlier than [date_cutoff]. *)
Definition date_lt (date_cutoff : Z) (r : Contribution) : bool :=
  match date (fields r) with
  | Some d => (d <? date_cutoff)%Z
  | None => false
  end.

(** A fresh row without its timestamp, as the left join leaves it. *)
Definition unstamped (l : Fields) : Contribution :=
  {| fields := l; timestamp := None |}.

(** An event that neither writes the store nor sends a tweet. *)
Definition is_quiet (ev : Event) : bool := negb (is_put ev) && negb (is_tweet ev).

(** [st'] comes after [st]: the blobs are the same, and the events recorded
    in between all satisfy [P]. *)
Definition follows (P : Event -> Prop) (st st' : State) : Prop :=
  s3_objects st' = s3_objects st
  /\ exists evs, trace st' = evs ++ trace st /\ Forall P evs.

(** The row of a kept entry after both conversions. *)
Definition converted (to_numeric to_datetime : string -> option Z)
    (c : Cells string (option string)) (f : Fields) : Prop :=
  to_numeric (amount c) = Some (amount f)
  /\ date f = (date c ≫= to_datetime)
  /\ set_date (set_amount c (amount f)) (date f) = f.

(** What [get_latest_data] makes of the fetched payload. *)
Definition latest_data_of (to_numeric to_datetime : string -> option Z) (env : Env)
    (records_df : list Contribution) (payload : option Payload)
  : result (option (list Contribution)) :=
  match payload with
  | None | Some JsonNonDict => Ok None
  | Some (JsonDict None) => Raise KeyError
  | Some (JsonDict (Some entries)) =>
      match normalize to_numeric to_datetime entries with
      | Ok latest_df => Ok (Some (new_contributions (now env) latest_df records_df))
      | Raise e => Raise e
      end
  end.

(** The events of one [send_tweet message]. *)
Definition of_send (message : string) (wait_time : Z) (ev : Event) : Prop :=
  ev = EvSleep wait_time \/ exists delivered, ev = EvCreateTweet message delivered.

(** The state after a [put_object] that went through. *)
Definition after_put (bucket key : string) (rows : list Contribution) (st : State)
  : State :=
  {| s3_objects := <[(bucket, key) := CsvBody rows]> (s3_objects st);
     http_calls := http_calls st; tweet_calls := tweet_calls st;
     trace := EvPutObject bucket key rows :: trace st |}.

(** The store [main] writes. *)
Definition store_to_write (opts : Options) (records_df latest_df : list Contribution)
  : list Contribution :=
  if record opts then records_df ++ latest_df else records_df.

(** The text [main] asks for on [row]. *)
Definition rendering (opts : Options) (grouped_records_df : list (Key5 * Z)) (row : Row)
  : result string :=
  get_tweet_body row (sum_contribution_for opts grouped_records_df row)
    (n_prev_days opts) default_char_limit.

(** ** The invocation entry point *)

(** [lambda_handler(event, context)]: [main] runs with its default options,
    its return value is dropped, and the status code 200 is returned. *)
Definition lambda_handler (to_numeric to_datetime : string -> option Z) (env : Env)
  : M Z :=
  _ ← main to_numeric to_datetime env default_options;
  mret 200%Z.

(** ** Notions for the further properties *)

(** The laws of a three-way comparison that decides a strict total order. *)
Class CompareLaws {K : Type} (compare : K -> K -> comparison) : Prop := {
  compare_eq : forall a b, compare a b = Eq <-> a = b;
  compare_antisym : forall a b, compare b a = CompOpp (compare a b);
  compare_trans : forall a b c, compare a b = Lt -> compare b c = Lt -> compare a c = Lt
}.

(** The lexicographic comparison of pairs. *)
Definition pair_compare {A B : Type} (ca : A -> A -> comparison)
    (cb : B -> B -> comparison) (x y : A * B) : comparison :=
  lex (ca (fst x) (fst y)) (cb (snd x) (snd y)).

(** The amount a grouped frame holds for the key [k]. *)
Fixpoint find_group {K : Type} (compare : K -> K -> comparison) (k : K)
    (groups : list (K * Z)) : option Z :=
  match groups with
  | [] => None
  | (k', s) :: groups' =>
      match compare k k' with
      | Eq => Some s
      | _ => find_group compare k groups'
      end
  end.

(** The order of the keys of a grouped frame. *)
Definition key_lt {K : Type} (compare : K -> K -> comparison) (x y : K * Z) : Prop :=
  compare (fst x) (fst y) = Lt.

(** The sum of the amounts of the rows of a frame. *)
Definition total_amount (df : list Contribution) : Z :=
  foldr (fun r acc => (amount (fields r) + acc)%Z) 0%Z df.

(** The sum of the amounts of a grouped frame. *)
Definition total_grouped {K : Type} (groups : list (K * Z)) : Z :=
  foldr (fun g acc => (snd g + acc)%Z) 0%Z groups.

#[global] Instance Key5_eq_dec : EqDecision Key5.
Proof. unfold Key5. apply _. Defined.

#[global] Instance Key6_eq_dec : EqDecision Key6.
Proof. unfold Key6. apply _. Defined.

(** The formatted amount without its separators. *)
Fixpoint remove_commas (s : string) : string :=
  match s with
  | EmptyString => EmptyString
  | String c s' =>
      if Ascii.eqb c "," then remove_commas s' else String c (remove_commas s')
  end.

(** None of the four key fields of the entry is blank. *)
Definition has_key_fields (e : RawEntry) : bool :=
  negb (is_blank (a_pacshort e)) && negb (is_blank (a_suppopp e))
  && negb (is_blank (a_candname e)) && negb (is_blank (a_amount e)).

(** [f] is the typed row of the entry [e]. *)
Definition typed_from (to_numeric to_datetime : string -> option Z)
    (e : RawEntry) (f : Fields) : Prop :=
  exists c, keep_key_columns (cells_of_entry e) = Some c
            /\ converted to_numeric to_datetime c f.

(** The events a run adds to the trace of [st] to reach [st']. *)
Definition events_between (st st' : State) : list Event :=
  take (length (trace st') - length (trace st)) (trace st').

(** The district as the renderer prints it. *)
Definition printed_district (district : string) : string :=
  match String.get 2 district with
  | Some "S"%char => Str.slice_to district 2
  | _ => district
  end.

(** What the notify loop may record for the rows [rows]: a retry pause, the
    pause between tweets, a delivery attempt of the text of a row that meets
    the minimum amount, or the report of a row whose rendering raised. *)
Definition notify_event (opts : Options) (grouped_records_df : list (Key5 * Z))
    (rows : list Row) (ev : Event) : Prop :=
  match ev with
  | EvSleep secs => tweet opts = true /\ (secs = 1%Z \/ secs = between_tweets_time opts)
  | EvCreateTweet body _ =>
      tweet opts = true
      /\ exists row, row ∈ rows
           /\ (min_report_amt opts <= row_amount row)%Z
           /\ rendering opts grouped_records_df row = Ok body
  | EvCouldNotProcess _ row =>
      row ∈ rows
      /\ (min_report_amt opts <= row_amount row)%Z
      /\ exists e, rendering opts grouped_records_df row = Raise e
  | _ => False
  end.

(** What a run of [main] may record. *)
Definition main_event (opts : Options) (ev : Event) : Prop :=
  match ev with
  | EvGetObject bucket key | EvPutObject bucket key _ =>
      bucket = bucket_name opts /\ key = records_file_name opts
  | EvHttpGet => True
  | EvSleep secs => secs = 1%Z \/ (tweet opts = true /\ secs = between_tweets_time opts)
  | EvCreateTweet body _ =>
      tweet opts = true /\ (Str.len body <= default_char_limit)%Z
  | EvCouldNotProcess _ _ => True
  end.

(** * Properties *)

(** ** Strings *)

Section StrFacts.

Lemma startswith_app p t : Str.startswith p (p +:+ t) = true.
Proof.
  induction p as [|a p IH]; simpl; [done|].
  by rewrite Ascii.eqb_refl.
Qed.

Lemma startswith_inv p s : Str.startswith p s = true -> exists t, s = p +:+ t.
Proof.
  revert s; induction p as [|a p IH]; intros s H; simpl in *.
  - by exists s.
  - destruct s as [|b s]; [done|].
    destruct (Ascii.eqb a b) eqn:E; [|done].
    apply Ascii.eqb_eq in E as ->.
    destruct (IH _ H) as [t ->]. by exists t.
Qed.

Lemma contains_cons sub c s :
  Str.contains sub (String c s) = Str.startswith sub (String c s) || Str.contains sub s.
Proof. done. Qed.

Lemma contains_app_r sub u s :
  Str.contains sub (u +:+ s) = false -> Str.contains sub s = false.
Proof.
  induction u as [|a u IH]; simpl; [done|].
  intros H. apply orb_false_iff in H as [_ H]. auto.
Qed.

(** A text without the first character of [pat] cannot start a match. *)
Lemma contains_skip_prefix d w u s :
  has_char d u = false ->
  Str.contains (String d w) (u +:+ s) = Str.contains (String d w) s.
Proof.
  induction u as [|a u IH]; simpl; [done|].
  intros H. apply orb_false_iff in H as [Hd Hu].
  rewrite Hd. simpl. auto.
Qed.

Lemma replace_from_skip old new w t :
  Str.replace_from old new (String.length w) (w +:+ t) = Str.replace_from old new 0 t.
Proof. induction w as [|a w IH]; simpl; [done|]. apply IH. Qed.

Lemma replace_from_cons old new c s :
  Str.replace_from old new 0 (String c s) =
  if Str.startswith old (String c s)
  then new +:+ Str.replace_from old new (String.length old - 1) s
  else String c (Str.replace_from old new 0 s).
Proof. done. Qed.

Lemma replace_match old new s :
  old <> "" -> Str.startswith old s = true ->
  exists t, s = old +:+ t /\ Str.replace old new s = new +:+ Str.replace old new t.
Proof.
  intros Hne H. destruct (startswith_inv _ _ H) as [t ->].
  exists t; split; [done|].
  destruct old as [|d wo]; [done|].
  unfold Str.replace.
  change (String d wo +:+ t) with (String d (wo +:+ t)) in *.
  rewrite replace_from_cons, H. cbn [String.length].
  rewrite Nat.sub_1_r. cbn [Nat.pred].
  by rewrite replace_from_skip.
Qed.

Lemma replace_nomatch old new c s :
  Str.startswith old (String c s) = false ->
  Str.replace old new (String c s) = String c (Str.replace old new s).
Proof. intros H. unfold Str.replace. by rewrite replace_from_cons, H. Qed.

Lemma length_append (a b : string) :
  String.length (a +:+ b) = (String.length a + String.length b)%nat.
Proof. induction a; simpl; auto. Qed.

Section NoIntroduction.

(** [old] and [pat] start with the same character [d], which the
    replacement text lacks; the replacement text starts with [h], which
    the rest of [pat] lacks. *)
Variables (d h : ascii) (wo w new' : string).
Local Abbreviation old := (String d wo).
Local Abbreviation pat := (String d w).
Local Abbreviation new := (String h new').
Hypothesis d_not_in_new : has_char d new = false.
Hypothesis h_not_in_w : has_char h w = false.

(** What stands at the front of the result, if it lacks [h], stood at the
    front of the argument. *)
Lemma startswith_replace_inv u t :
  has_char h u = false ->
  Str.startswith u (Str.replace old new t) = true -> Str.startswith u t = true.
Proof using Type.
  revert t; induction u as [|a u IH]; intros t Hu H; [done|].
  simpl in Hu. apply orb_false_iff in Hu as [Hah Hu].
  destruct t as [|c t]; [done|].
  destruct (Str.startswith old (String c t)) eqn:E.
  - destruct (replace_match old new _ ltac:(done) E) as (t' & _ & Hr).
    rewrite Hr in H. simpl in H.
    rewrite Ascii.eqb_sym, Hah in H. done.
  - rewrite replace_nomatch in H by done. simpl in *.
    destruct (Ascii.eqb a c); [|done]. auto.
Qed.

Lemma replace_no_occurrence_aux n : forall s,
  (String.length s <= n)%nat ->
  pat = old \/ Str.contains pat s = false ->
  Str.contains pat (Str.replace old new s) = false.
Proof using d_not_in_new h_not_in_w.
  induction n as [|n IH]; intros s Hlen Hs.
  - destruct s; [done | simpl in Hlen; lia].
  - destruct s as [|c t]; [done|].
    destruct (Str.startswith old (String c t)) eqn:E.
    + destruct (replace_match old new _ ltac:(done) E) as (t' & Ht & ->).
      rewrite (contains_skip_prefix d w new _ d_not_in_new).
      apply IH.
      * apply (f_equal String.length) in Ht. rewrite length_append in Ht.
        simpl in *. lia.
      * destruct Hs as [?|Hs]; [by left|right].
        rewrite Ht in Hs. by apply contains_app_r in Hs.
    + rewrite replace_nomatch by done. rewrite contains_cons.
      apply orb_false_iff. split.
      * destruct (Str.startswith pat (String c (Str.replace old new t))) eqn:F; [|done].
        exfalso. simpl in F. destruct (Ascii.eqb d c) eqn:Edc; [|done].
        apply startswith_replace_inv in F; [|done].
        assert (Str.startswith pat (String c t) = true) as G
          by (simpl; by rewrite Edc).
        destruct Hs as [Hs|Hs].
        -- rewrite Hs in G. congruence.
        -- rewrite contains_cons, G in Hs. done.
      * apply IH; [simpl in Hlen; lia|].
        destruct Hs as [?|Hs]; [by left|right].
        rewrite contains_cons in Hs. by apply orb_false_iff in Hs as [_ ?].
Qed.

Lemma replace_no_occurrence s :
  pat = old \/ Str.contains pat s = false ->
  Str.contains pat (Str.replace old new s) = false.
Proof using d_not_in_new h_not_in_w. by apply (replace_no_occurrence_aux (String.length s)). Qed.

End NoIntroduction.

End StrFacts.

(** ** The renderer *)

Section RenderFacts.

Lemma append_assoc (a b c : string) : (a +:+ b) +:+ c = a +:+ (b +:+ c).
Proof.
  induction a as [|x a IH]; [done|].
  change (String x ((a +:+ b) +:+ c) = String x (a +:+ (b +:+ c))).
  by rewrite IH.
Qed.

Lemma length_substring_0 n s :
  String.length (String.substring 0 n s) = Nat.min n (String.length s).
Proof.
  revert s; induction n as [|n IH]; intros [|c s]; simpl; try done.
  by rewrite IH.
Qed.

Lemma get_None n s : String.get n s = None <-> (String.length s <= n)%nat.
Proof.
  revert n; induction s as [|c s IH]; intros n; simpl.
  - split; [lia|done].
  - destruct n as [|n]; [split; [done|lia]|].
    rewrite IH. lia.
Qed.

Lemma length_lower s : String.length (Str.lower s) = String.length s.
Proof. induction s; simpl; auto. Qed.

Lemma len_append a b : Str.len (a +:+ b) = (Str.len a + Str.len b)%Z.
Proof. unfold Str.len. rewrite length_append. lia. Qed.

Lemma len_nonneg s : (0 <= Str.len s)%Z.
Proof. unfold Str.len. lia. Qed.

Lemma truncate_bound char_limit body :
  (0 <= char_limit)%Z -> (Str.len (truncate char_limit body) <= char_limit)%Z.
Proof.
  intros H. unfold truncate.
  destruct (char_limit <? Str.len body)%Z eqn:E; [|lia].
  unfold Str.slice_to. destruct (0 <=? char_limit)%Z eqn:F; [|lia].
  unfold Str.len in *. rewrite length_substring_0. lia.
Qed.

Lemma escape_suffix_no_occurrence d h wo w new' pac :
  has_char d (String h new') = false ->
  has_char h w = false ->
  String d w = String d wo \/ Str.contains (String d w) pac = false ->
  Str.contains (String d w) (escape_suffix (String d wo) (String h new') pac) = false.
Proof.
  intros Hd Hh Hs. unfold escape_suffix.
  destruct (Str.contains (String d wo) pac) eqn:E.
  - by apply replace_no_occurrence.
  - destruct Hs as [Hs|Hs]; [|done]. by rewrite Hs.
Qed.

Lemma has_char_append d a b : has_char d (a +:+ b) = has_char d a || has_char d b.
Proof.
  induction a as [|c a IH]; [done|].
  change (String c a +:+ b) with (String c (a +:+ b)). simpl.
  by rewrite IH, orb_assoc.
Qed.

Lemma contains_no_first_char d w s :
  has_char d s = false -> Str.contains (String d w) s = false.
Proof.
  induction s as [|c s IH]; simpl; [done|].
  intros [Hc Hs]%orb_false_iff. rewrite Hc. simpl. auto.
Qed.

Lemma escape_suffix_no_first_char d w new s :
  has_char d s = false -> escape_suffix (String d w) new s = s.
Proof. intros H. unfold escape_suffix. by rewrite contains_no_first_char. Qed.

Lemma replace_no_first_char d w new s :
  has_char d s = false -> Str.replace (String d w) new s = s.
Proof.
  induction s as [|c s IH]; simpl; [done|].
  intros [Hc Hs]%orb_false_iff.
  rewrite replace_nomatch; [by rewrite IH|]. simpl. by rewrite Hc.
Qed.

(** The one occurrence in a name without another [d] is replaced. *)
Lemma escape_suffix_hit d w new a b :
  has_char d a = false -> has_char d b = false ->
  escape_suffix (String d w) new (a +:+ String d w +:+ b) = a +:+ new +:+ b.
Proof.
  intros Ha Hb. unfold escape_suffix.
  rewrite contains_skip_prefix by done.
  assert (Str.contains (String d w) (String d w +:+ b) = true) as ->.
  { change (String d w +:+ b) with (String d (w +:+ b)). rewrite contains_cons.
    change (String d (w +:+ b)) with (String d w +:+ b). by rewrite startswith_app. }
  induction a as [|c a IH].
  - change ("" +:+ String d w +:+ b) with (String d w +:+ b).
    destruct (replace_match (String d w) new (String d w +:+ b) ltac:(done)
                (startswith_app _ _)) as (t & Ht & ->).
    apply (f_equal (fun x => match x with String _ r => r | _ => x end)) in Ht.
    clear -Ht Hb. revert t Ht. change (String d w +:+ b) with (String d (w +:+ b)).
    intros t Ht.
    assert (t = b) as ->.
    { revert Ht. clear. induction w as [|x w IH]; simpl; [done|].
      intros [= H]. auto. }
    by rewrite replace_no_first_char.
  - simpl in Ha. apply orb_false_iff in Ha as [Hc Ha].
    change (String c a +:+ String d w +:+ b) with (String c (a +:+ String d w +:+ b)).
    rewrite replace_nomatch by (simpl; by rewrite Hc).
    rewrite IH by done. done.
Qed.

(** Another suffix leaves such a name as it is. *)
Lemma escape_suffix_miss d w w' new a b :
  has_char d a = false -> has_char d (w' +:+ b) = false ->
  Str.startswith (String d w) (String d w' +:+ b) = false ->
  escape_suffix (String d w) new (a +:+ String d w' +:+ b) = a +:+ String d w' +:+ b.
Proof.
  intros Ha Hb Hs. unfold escape_suffix.
  rewrite contains_skip_prefix by done.
  change (String d w' +:+ b) with (String d (w' +:+ b)) in *.
  by rewrite contains_cons, Hs, contains_no_first_char.
Qed.

Lemma escape_pac_one_dot a b :
  has_char "." a = false -> has_char "." b = false ->
  Forall (fun '(suffix, replacement) =>
            escape_pac (a +:+ suffix +:+ b) = a +:+ replacement +:+ b)
    domain_escapes.
Proof.
  intros Ha Hb. unfold domain_escapes, escape_pac.
  assert (forall r, has_char "." r = false ->
            has_char "." (a +:+ r +:+ b) = false) as Hclean.
  { intros r Hr. by rewrite !has_char_append, Ha, Hr, Hb. }
  assert (forall w', has_char "." w' = false -> has_char "." (w' +:+ b) = false)
    as Hrest by (intros w' Hw; by rewrite has_char_append, Hw, Hb).
  repeat apply Forall_cons_2; [..|apply Forall_nil_2];
    repeat first
      [ rewrite escape_suffix_hit by done
      | rewrite escape_suffix_miss by (done || by apply Hrest)
      | match goal with
        | |- context [escape_suffix (String ?d ?w) ?new (a +:+ ?r +:+ b)] =>
            rewrite (escape_suffix_no_first_char d w new (a +:+ r +:+ b))
              by (by apply Hclean)
        end ];
    done.
Qed.

Lemma escape_pac_no_suffix pac :
  Forall (fun suffix => Str.contains suffix (escape_pac pac) = false) domain_suffixes.
Proof.
  unfold escape_pac, domain_suffixes.
  assert (forall d h wo w new' p,
    has_char d (String h new') = false -> has_char h w = false ->
    String d w = String d wo ->
    Str.contains (String d w) (escape_suffix (String d wo) (String h new') p) = false)
    as clears by (intros; apply escape_suffix_no_occurrence; auto).
  assert (forall d h wo w new' p,
    has_char d (String h new') = false -> has_char h w = false ->
    Str.contains (String d w) p = false ->
    Str.contains (String d w) (escape_suffix (String d wo) (String h new') p) = false)
    as keeps by (intros; apply escape_suffix_no_occurrence; auto).
  repeat apply Forall_cons_2; [..|apply Forall_nil_2];
    repeat first [ by apply clears | apply keeps; [done|done|] ].
Qed.

(** The shape of every returned text: the escaped contributor name leads
    the text that is then cut to the limit. *)
Lemma get_tweet_body_Ok row sum_prev n_prev_days char_limit body :
  get_tweet_body row sum_prev n_prev_days char_limit = Ok body ->
  exists rest, body = truncate char_limit (escape_pac (row_pacshort row) +:+ rest).
Proof.
  unfold get_tweet_body, mbind, result_bind, rbind, primary_sentence, short_sentence.
  destruct (nth_error _ 1) as [firstname|]; [|done].
  destruct (String.get 2 _) as [third|]; [|done].
  destruct sum_prev as [s|]; [destruct (row_amount row <? s)%Z|];
    rewrite ?append_assoc;
    match goal with |- context [(char_limit <? Str.len ?b)%Z] =>
      destruct (char_limit <? Str.len b)%Z end;
    try done; rewrite ?append_assoc; intros [= <-]; eexists; reflexivity.
Qed.

Lemma get_tweet_body_short_district row sum_prev n_prev_days char_limit :
  (String.length (row_district row) < 3)%nat ->
  get_tweet_body row sum_prev n_prev_days char_limit = Raise IndexError.
Proof.
  intros H. unfold get_tweet_body, mbind, result_bind, rbind.
  destruct (nth_error _ 1); [|done].
  assert (String.get 2 (row_district row) = None) as -> by (apply get_None; lia).
  done.
Qed.

Ltac len_facts :=
  repeat match goal with
         | |- context [Str.len ?x] =>
             lazymatch goal with
             | _ : (0 <= Str.len x)%Z |- _ => fail
             | _ => pose proof (len_nonneg x)
             end
         end.

Lemma len_lower s : Str.len (Str.lower s) = Str.len s.
Proof. unfold Str.len. by rewrite length_lower. Qed.

Lemma primary_sentence_longer_than_purpose pac amount_str purpose suppopp
    firstname lastname party district_string :
  (Str.len purpose
   <= Str.len (primary_sentence pac amount_str purpose suppopp firstname lastname
                 party district_string))%Z.
Proof. unfold primary_sentence. rewrite !len_append. len_facts. lia. Qed.

End RenderFacts.

(** ** Deduplication *)

Section DedupFacts.

Lemma filter_nil_Forall (l : Fields) (records_df : list Contribution) :
  filter (fun r => fields r = l) records_df = [] <->
  Forall (fun r => fields r <> l) records_df.
Proof.
  induction records_df as [|r rs IH].
  - split; [constructor|done].
  - rewrite filter_cons. destruct (decide (fields r = l)) as [E|E].
    + split; [done|]. intros H. inversion H; subst. done.
    + rewrite IH. split; [by constructor|]. intros H. by inversion H.
Qed.

Lemma left_only_rows latest_df records_df :
  map fst (filter is_left_only (merge_left latest_df records_df)) =
  map unstamped (filter (fun l => Forall (fun r => fields r <> l) records_df) latest_df).
Proof.
  induction latest_df as [|l ls IH]; [done|].
  unfold merge_left in *. cbn [flat_map]. rewrite filter_app, map_app, IH.
  rewrite filter_cons.
  destruct (filter (fun r => fields r = l) records_df) as [|m ms] eqn:E.
  - apply filter_nil_Forall in E.
    destruct (decide _) as [|N]; [done|]. by destruct N.
  - destruct (decide _) as [F|_].
    + apply filter_nil_Forall in F. congruence.
    + replace (filter is_left_only
                 (map (fun r => ({| fields := l; timestamp := timestamp r |}, both))
                    (m :: ms))) with (@nil (Contribution * Indicator)); [done|].
      generalize (m :: ms). intros l0. induction l0; [done|].
      cbn [map]. rewrite filter_cons_False; [done|exact (fun H => H)].
Qed.

Lemma sort_insert_perm x l : sort_insert x l ≡ₚ x :: l.
Proof.
  induction l as [|y l IH]; [done|]. simpl.
  destruct (sort_before x y); [done|].
  rewrite IH. apply Permutation_swap.
Qed.

Lemma sort_values_perm l : sort_values l ≡ₚ l.
Proof.
  induction l as [|x l IH]; [done|].
  unfold sort_values in *. simpl. by rewrite sort_insert_perm, IH.
Qed.

Lemma new_contributions_perm now latest_df records_df :
  new_contributions now latest_df records_df ≡ₚ
  map (fun l => {| fields := l; timestamp := Some now |})
      (filter (fun l => Forall (fun r => fields r <> l) records_df) latest_df).
Proof.
  unfold new_contributions. rewrite left_only_rows.
  destruct (filter _ latest_df) as [|l ls]; [done|].
  replace (0 <? length (map unstamped (l :: ls)))%nat with true by done.
  rewrite sort_values_perm, map_map. done.
Qed.

Lemma elem_of_new_contributions now latest_df records_df c :
  c ∈ new_contributions now latest_df records_df <->
  fields c ∈ latest_df
  /\ (forall r, r ∈ records_df -> fields r <> fields c)
  /\ timestamp c = Some now.
Proof.
  rewrite new_contributions_perm, list_elem_of_In, in_map_iff.
  setoid_rewrite <- list_elem_of_In. setoid_rewrite list_elem_of_filter.
  setoid_rewrite Forall_forall. split.
  - intros (l & <- & H & Hl). simpl. done.
  - intros (Hl & H & Ht). exists (fields c). destruct c as [f t]; simpl in *.
    by subst.
Qed.

Lemma new_contributions_subset now latest_df records_df :
  (forall l, l ∈ latest_df -> exists r, r ∈ records_df /\ fields r = l) ->
  new_contributions now latest_df records_df = [].
Proof.
  intros H. apply elem_of_nil_inv. intros c Hc.
  apply elem_of_new_contributions in Hc as (Hl & Hr & _).
  destruct (H _ Hl) as (r & Hin & E). by apply (Hr r).
Qed.

End DedupFacts.

(** ** Retention *)

Section RetentionFacts.

Lemma elem_of_trim_records now n_prev_days records_df r :
  r ∈ trim_records now n_prev_days records_df <->
  r ∈ records_df
  /\ exists d, date (fields r) = Some d /\ (now - timedelta_days n_prev_days <= d)%Z.
Proof.
  unfold trim_records. destruct records_df as [|r0 rs].
  - simpl. split; [by intros ?%elem_of_nil|by intros [?%elem_of_nil _]].
  - replace (0 <? length (r0 :: rs))%nat with true by done.
    rewrite list_elem_of_filter. unfold date_ge.
    destruct (date (fields r)) as [d|].
    + rewrite Is_true_true, Z.leb_le. split.
      * intros [? ?]. split; [done|]. by exists d.
      * intros [? (d' & [= <-] & ?)]. done.
    + split; [by intros [[] _]|]. by intros [_ (d & ? & _)].
Qed.

Lemma filter_idemp {A} (P : A -> Prop) `{forall x, Decision (P x)} (l : list A) :
  filter P (filter P l) = filter P l.
Proof.
  induction l as [|x l IH]; [done|].
  rewrite filter_cons. destruct (decide (P x)); [|done].
  by rewrite filter_cons_True, IH.
Qed.

Lemma trim_records_idemp now n_prev_days records_df :
  trim_records now n_prev_days (trim_records now n_prev_days records_df)
  = trim_records now n_prev_days records_df.
Proof.
  unfold trim_records. destruct records_df as [|r rs]; [done|].
  replace (0 <? length (r :: rs))%nat with true by done.
  destruct (0 <? length (filter _ (r :: rs)))%nat; [|done].
  apply filter_idemp.
Qed.

End RetentionFacts.

(** ** Normalisation *)

Section NormalizeFacts.

Variable to_numeric : string -> option Z.
Variable to_datetime : string -> option Z.

Lemma convert_column_Ok {X Y} (f : X -> result Y) rows ys :
  convert_column f rows = Ok ys -> Forall2 (fun x y => f x = Ok y) rows ys.
Proof.
  revert ys; induction rows as [|x rows IH]; intros ys; simpl.
  - intros [= <-]. constructor.
  - unfold mbind, result_bind, rbind.
    destruct (f x) as [y|] eqn:E; [|done].
    destruct (convert_column f rows) as [ys'|]; [|done].
    intros [= <-]. constructor; auto.
Qed.

Lemma convert_column_raise {X Y} (f : X -> result Y) rows e x :
  x ∈ rows -> f x = Raise e ->
  (forall x' e', f x' = Raise e' -> e' = e) ->
  convert_column f rows = Raise e.
Proof.
  intros Hin Hx Hall. induction rows as [|x0 rows IH]; [by apply elem_of_nil in Hin|].
  simpl. unfold mbind, result_bind, rbind.
  destruct (f x0) as [y|e0] eqn:E; [|by rewrite (Hall _ _ E)].
  apply elem_of_cons in Hin as [->|Hin]; [congruence|].
  by rewrite IH.
Qed.

Lemma convert_column_Raise {X Y} (f : X -> result Y) rows e :
  convert_column f rows = Raise e -> exists x, x ∈ rows /\ f x = Raise e.
Proof.
  induction rows as [|x rows IH]; simpl; [done|].
  unfold mbind, result_bind, rbind.
  destruct (f x) as [y|e0] eqn:E.
  - destruct (convert_column f rows); [done|]. intros [= <-].
    destruct IH as (x' & ? & ?); [done|]. exists x'. split; [by right|done].
  - intros [= <-]. exists x. split; [by left|done].
Qed.

Lemma amount_to_numeric_raises {D} (c : Cells string D) e :
  amount_to_numeric to_numeric c = Raise e -> e = ValueError.
Proof. unfold amount_to_numeric. destruct (to_numeric _); congruence. Qed.

Lemma date_to_datetime_raises {A} (c : Cells A (option string)) e :
  date_to_datetime to_datetime c = Raise e -> e = ValueError.
Proof.
  unfold date_to_datetime. destruct (date c); [|done].
  destruct (to_datetime _); congruence.
Qed.

Lemma normalize_unfold e entries :
  normalize to_numeric to_datetime (e :: entries) =
  (latest_df ← convert_column (amount_to_numeric to_numeric)
                (dropna_key_columns (map cells_of_entry (e :: entries)));
   convert_column (date_to_datetime to_datetime) latest_df).
Proof. done. Qed.

(** A kept row whose amount or date text does not convert makes the whole
    normalisation raise. *)
Lemma normalize_conversion_failure entries c :
  c ∈ dropna_key_columns (map cells_of_entry entries) ->
  to_numeric (amount c) = None
  \/ (exists s, date c = Some s /\ to_datetime s = None) ->
  normalize to_numeric to_datetime entries = Raise ValueError.
Proof.
  intros Hc Hbad. destruct entries as [|e0 entries]; [by apply elem_of_nil in Hc|].
  rewrite normalize_unfold. generalize dependent (e0 :: entries). clear e0 entries.
  intros entries Hc. unfold mbind, result_bind, rbind.
  destruct (convert_column (amount_to_numeric to_numeric) _) as [l1|e1] eqn:E1.
  - apply convert_column_Ok in E1.
    destruct (proj1 (list_elem_of_lookup _ _) Hc) as [i Hi].
    destruct (Forall2_lookup_l _ _ _ _ _ E1 Hi) as (c1 & Hi1 & Hc1).
    destruct Hbad as [Hbad|(s & Hs & Hbad)].
    + unfold amount_to_numeric in Hc1. by rewrite Hbad in Hc1.
    + eapply convert_column_raise.
      * eapply list_elem_of_lookup_2, Hi1.
      * unfold amount_to_numeric in Hc1. destruct (to_numeric (amount c)); [|done].
        injection Hc1 as <-. unfold date_to_datetime. simpl. by rewrite Hs, Hbad.
      * intros ? ?. apply date_to_datetime_raises.
  - apply convert_column_Raise in E1 as (x & _ & Hx).
    by apply amount_to_numeric_raises in Hx as ->.
Qed.

(** When the normalisation returns, every kept row is there, converted. *)
Lemma normalize_Ok entries latest_df :
  normalize to_numeric to_datetime entries = Ok latest_df ->
  Forall2 (converted to_numeric to_datetime)
    (dropna_key_columns (map cells_of_entry entries)) latest_df.
Proof.
  destruct entries as [|e0 entries]; [done|].
  rewrite normalize_unfold. generalize (e0 :: entries). clear. intros entries.
  unfold mbind, result_bind, rbind.
  destruct (convert_column (amount_to_numeric to_numeric) _) as [l1|] eqn:E1; [|done].
  intros E2. apply convert_column_Ok in E1, E2.
  revert latest_df E2. induction E1 as [|c c1 l l1 Hc _ IH]; intros latest_df E2.
  - inversion E2. constructor.
  - inversion E2 as [|? f ? l2 Hf Hl2]; subst. constructor; [|by apply IH].
    unfold amount_to_numeric in Hc. destruct (to_numeric (amount c)) as [a|] eqn:Ea; [|done].
    injection Hc as <-. unfold date_to_datetime in Hf. simpl in Hf.
    unfold converted. destruct (date c) as [s|] eqn:Ed; simpl.
    + destruct (to_datetime s) as [d|] eqn:Es; [|done]. injection Hf as <-. by simpl.
    + injection Hf as <-. by simpl.
Qed.

End NormalizeFacts.

(** ** Runs *)

Section FollowsFacts.

Lemma follows_refl P st : follows P st st.
Proof. split; [done|]. by exists []. Qed.

Lemma follows_trans P st1 st2 st3 :
  follows P st1 st2 -> follows P st2 st3 -> follows P st1 st3.
Proof.
  intros [H1 (e1 & T1 & F1)] [H2 (e2 & T2 & F2)]. split; [congruence|].
  exists (e2 ++ e1). split; [by rewrite T2, T1, app_assoc|by apply Forall_app].
Qed.

Lemma follows_weaken (P Q : Event -> Prop) st st' :
  (forall ev, P ev -> Q ev) -> follows P st st' -> follows Q st st'.
Proof.
  intros HPQ [H1 (e1 & T1 & F1)]. split; [done|]. exists e1. split; [done|].
  eapply Forall_impl; eauto.
Qed.

Lemma follows_record_event (P : Event -> Prop) ev st :
  P ev -> follows P st (record_event ev st).
Proof. intros H. split; [done|]. exists [ev]. split; [done|]. by constructor. Qed.

Lemma follows_elem_of P st st' ev : follows P st st' -> ev ∈ trace st -> ev ∈ trace st'.
Proof. intros [_ (evs & -> & _)] H. apply elem_of_app. by right. Qed.

End FollowsFacts.

Section RunFacts.

Variable to_numeric : string -> option Z.
Variable to_datetime : string -> option Z.
Variable env : Env.

Lemma get_records_run b k st :
  get_records env b k st =
  (match s3_get_fault env with
   | Some e => if is_client_error e then Ok initialize_records else Raise e
   | None =>
       match s3_objects st !! (b, k) with
       | Some obj => read_csv obj
       | None => Ok initialize_records
       end
   end, record_event (EvGetObject b k) st).
Proof.
  unfold get_records, try_except, get_object, fetch_object, mbind, M_bind, log, lift.
  cbn [s3_objects record_event].
  destruct (s3_get_fault env) as [e|].
  - by destruct (is_client_error e).
  - destruct (s3_objects st !! (b, k)) as [[rows|bytes]|]; done.
Qed.

Lemma get_check_errors_run st :
  exists data st', get_check_errors env st = (Ok data, st') /\ follows is_quiet st st'.
Proof.
  eexists _, _. split; [reflexivity|]. split; [done|].
  exists [EvHttpGet]. split; [done|]. by constructor.
Qed.

Lemma get_json_loop_run wait_time k : forall data st,
  exists r st', get_json_loop env wait_time k data st = (Ok r, st')
                /\ follows is_quiet st st'.
Proof.
  induction k as [|k IH]; intros data st; simpl.
  - eexists _, _. split; [reflexivity|apply follows_refl].
  - destruct data as [p|].
    + eexists _, _. split; [reflexivity|apply follows_refl].
    + unfold mbind, M_bind, sleep, log.
      destruct (get_check_errors_run (record_event (EvSleep wait_time) st))
        as (d & st1 & -> & F1).
      destruct (IH d st1) as (r & st2 & -> & F2).
      eexists _, _. split; [reflexivity|].
      apply (follows_trans _ _ (record_event (EvSleep wait_time) st));
        [by apply follows_record_event|].
      by eapply follows_trans.
Qed.

Lemma get_latest_expenditures_run n_retries st :
  exists r st', get_latest_expenditures env n_retries st = (Ok r, st')
                /\ follows is_quiet st st'.
Proof.
  unfold get_latest_expenditures, get_json, mbind, M_bind.
  destruct (get_check_errors_run st) as (d & st1 & -> & F1).
  destruct (get_json_loop_run 1 (n_retries - 1) d st1) as (r & st2 & -> & F2).
  eexists _, _. split; [reflexivity|]. by eapply follows_trans.
Qed.

Lemma get_latest_data_run records_df n_retries st payload st' :
  get_latest_expenditures env n_retries st = (Ok payload, st') ->
  get_latest_data to_numeric to_datetime env records_df n_retries st
  = (latest_data_of to_numeric to_datetime env records_df payload, st').
Proof.
  intros H. unfold get_latest_data, mbind, M_bind. rewrite H.
  destruct payload as [[|[entries|]]|]; try done.
  unfold lift, latest_data_of. by destruct (normalize _ _ _).
Qed.

Lemma get_latest_data_follows records_df n_retries st :
  follows is_quiet st
    (snd (get_latest_data to_numeric to_datetime env records_df n_retries st)).
Proof.
  destruct (get_latest_expenditures_run n_retries st) as (r & st' & H & F).
  by rewrite (get_latest_data_run _ _ _ _ _ H).
Qed.

Lemma get_latest_data_fetches records_df n_retries st :
  EvHttpGet ∈ trace
    (snd (get_latest_data to_numeric to_datetime env records_df n_retries st)).
Proof.
  destruct (get_latest_expenditures_run n_retries st) as (r & st' & H & _).
  rewrite (get_latest_data_run _ _ _ _ _ H). simpl.
  revert H. unfold get_latest_expenditures, get_json, mbind, M_bind.
  cbn [get_check_errors].
  match goal with |- context [get_json_loop env 1 ?k ?d ?s] =>
    destruct (get_json_loop_run 1 k d s) as (r' & st'' & -> & F) end.
  intros [= _ <-]. eapply follows_elem_of; [exact F|]. by left.
Qed.

Lemma try_send_tweet_run message wait_time st :
  exists delivered st', try_send_tweet env message st = (Ok delivered, st')
    /\ follows (of_send message wait_time) st st'
    /\ EvCreateTweet message delivered ∈ trace st'.
Proof.
  eexists _, _. split; [reflexivity|]. split.
  - split; [done|]. eexists [_]. split; [done|]. constructor; [|done].
    right. by eexists.
  - by left.
Qed.

Lemma send_tweet_loop_run message wait_time n_retries : forall st,
  exists r st', send_tweet_loop env message n_retries wait_time st = (Ok r, st')
    /\ follows (of_send message wait_time) st st'.
Proof.
  induction n_retries as [|k IH]; intros st; simpl.
  - eexists _, _. split; [reflexivity|apply follows_refl].
  - unfold mbind, M_bind, sleep, log.
    destruct (try_send_tweet_run message wait_time (record_event (EvSleep wait_time) st))
      as (d & st1 & -> & F1 & _).
    assert (follows (of_send message wait_time) st st1) as F0.
    { eapply follows_trans; [|exact F1]. apply follows_record_event. by left. }
    destruct d.
    + eexists _, _. split; [reflexivity|done].
    + destruct (IH st1) as (r & st2 & -> & F2).
      eexists _, _. split; [reflexivity|]. by eapply follows_trans.
Qed.

Lemma send_tweet_run message n_retries wait_time st :
  exists r st', send_tweet env message n_retries wait_time st = (Ok r, st')
    /\ follows (of_send message wait_time) st st'
    /\ exists delivered, EvCreateTweet message delivered ∈ trace st'.
Proof.
  unfold send_tweet, mbind, M_bind.
  destruct (try_send_tweet_run message wait_time st) as (d & st1 & -> & F1 & Hin).
  destruct d.
  - eexists _, _. split; [reflexivity|]. split; [done|]. by eexists.
  - destruct (send_tweet_loop_run message wait_time n_retries st1)
      as (r & st2 & -> & F2).
    eexists _, _. split; [reflexivity|]. split; [by eapply follows_trans|].
    exists false. by eapply follows_elem_of.
Qed.

End RunFacts.

Section MainFacts.

Variable to_numeric : string -> option Z.
Variable to_datetime : string -> option Z.
Variable env : Env.
Variable opts : Options.

Lemma write_records_run rows b k st :
  write_records env rows b k st =
  match s3_put_fault env with
  | Some e => (Raise e, record_event (EvPutObject b k rows) st)
  | None => (Ok tt, after_put b k rows st)
  end.
Proof.
  unfold write_records, store_object, mbind, M_bind, log.
  by destruct (s3_put_fault env).
Qed.

(** A row the renderer refuses is logged and left. *)
Lemma notify_row_raise grouped i row st e :
  rendering opts grouped row = Raise e ->
  notify_row env opts grouped i row st =
  (Ok tt, if (min_report_amt opts <=? row_amount row)%Z
          then record_event (EvCouldNotProcess i row) st else st).
Proof.
  unfold rendering, notify_row, try_except, mbind, M_bind, lift, log.
  intros ->. by destruct (_ <=? _)%Z.
Qed.

Lemma notify_row_run grouped i row st :
  exists st', notify_row env opts grouped i row st = (Ok tt, st')
    /\ follows (fun ev => is_put ev = false) st st'
    /\ forall body, (min_report_amt opts <= row_amount row)%Z ->
         rendering opts grouped row = Ok body -> tweet opts = true ->
         exists delivered, EvCreateTweet body delivered ∈ trace st'.
Proof.
  unfold rendering, notify_row.
  destruct (_ <=? _)%Z eqn:Hmin;
    [|exists st; split; [done|]; split; [apply follows_refl|lia]].
  unfold try_except, mbind, M_bind, lift, log, sleep.
  destruct (get_tweet_body _ _ _ _) as [body|e].
  - destruct (tweet opts).
    + destruct (send_tweet_run env body 1 1 st) as (r & st1 & -> & F & d & Hd).
      eexists. split; [reflexivity|]. split.
      * eapply follows_trans; [|by apply follows_record_event].
        eapply follows_weaken; [|exact F]. by intros ev [->|[? ->]].
      * intros ? _ [= <-] _. exists d. by right.
    + exists st. split; [done|]. split; [apply follows_refl|done].
  - eexists. split; [reflexivity|]. split; [by apply follows_record_event|done].
Qed.

Lemma notify_loop_run grouped rows : forall i st,
  exists st', notify_loop env opts grouped i rows st = (Ok tt, st')
    /\ follows (fun ev => is_put ev = false) st st'
    /\ forall row body, row ∈ rows ->
         (min_report_amt opts <= row_amount row)%Z ->
         rendering opts grouped row = Ok body -> tweet opts = true ->
         exists delivered, EvCreateTweet body delivered ∈ trace st'.
Proof.
  induction rows as [|row rows IH]; intros i st; simpl.
  - exists st. split; [done|]. split; [apply follows_refl|].
    by intros ? ? ?%elem_of_nil.
  - unfold mbind, M_bind.
    destruct (notify_row_run grouped i row st) as (st1 & -> & F1 & A1).
    destruct (IH (S i) st1) as (st2 & -> & F2 & A2).
    exists st2. split; [done|]. split; [by eapply follows_trans|].
    intros r body [->|Hin]%elem_of_cons Hmin Hbody Htweet.
    + destruct (A1 body Hmin Hbody Htweet) as [d Hd].
      exists d. by eapply follows_elem_of.
    + by eapply A2.
Qed.

Lemma main_load_failure st e st1 :
  get_records env (bucket_name opts) (records_file_name opts) st = (Raise e, st1) ->
  main to_numeric to_datetime env opts st = (Raise e, st1).
Proof. intros H. unfold main, mbind, M_bind. by rewrite H. Qed.

(** A run whose store is loaded goes on to fetch the feed. *)
Lemma main_fetches_after_load st records st1 :
  get_records env (bucket_name opts) (records_file_name opts) st = (Ok records, st1) ->
  EvHttpGet ∈ trace (snd (main to_numeric to_datetime env opts st)).
Proof.
  intros Hload.
  pose proof (get_latest_data_fetches to_numeric to_datetime env
                (trim_records (now env) (n_prev_days opts) records) 10 st1) as Hin.
  unfold main, mbind at 1, M_bind at 1. rewrite Hload.
  unfold mbind at 1, M_bind at 1.
  destruct (get_latest_data _ _ _ _ _ _) as [[[latest_df|]|e] st2]; try done.
  unfold mbind at 1, M_bind at 1. rewrite write_records_run.
  destruct (s3_put_fault env); [by right|].
  unfold mbind, M_bind.
  match goal with |- context [notify_loop env opts ?g 0 ?rows ?s] =>
    destruct (notify_loop_run g rows 0 s) as (st3 & -> & F & _) end.
  eapply follows_elem_of; [exact F|]. by right.
Qed.

(** [main], stage by stage. *)
Lemma main_run st records st1 latest st2 :
  get_records env (bucket_name opts) (records_file_name opts) st = (Ok records, st1) ->
  get_latest_data to_numeric to_datetime env
    (trim_records (now env) (n_prev_days opts) records) 10 st1 = (latest, st2) ->
  main to_numeric to_datetime env opts st =
  match latest with
  | Raise e => (Raise e, st2)
  | Ok None => (Ok 1%Z, st2)
  | Ok (Some latest_df) =>
      let records_df :=
        store_to_write opts (trim_records (now env) (n_prev_days opts) records)
          latest_df in
      match s3_put_fault env with
      | Some e =>
          (Raise e,
           record_event
             (EvPutObject (bucket_name opts) (records_file_name opts) records_df) st2)
      | None =>
          (Ok 0%Z,
           snd (notify_loop env opts (grouped_records records_df) 0
                  (grouped_latest latest_df)
                  (after_put (bucket_name opts) (records_file_name opts)
                     records_df st2)))
      end
  end.
Proof.
  intros H1 H2. unfold main, mbind at 1, M_bind at 1. rewrite H1.
  unfold mbind at 1, M_bind at 1. rewrite H2.
  destruct latest as [[latest_df|]|e]; try done.
  unfold mbind at 1, M_bind at 1. fold (store_to_write opts
    (trim_records (now env) (n_prev_days opts) records) latest_df).
  rewrite write_records_run. cbv zeta.
  destruct (s3_put_fault env); [done|].
  unfold mbind, M_bind.
  match goal with |- context [notify_loop env opts ?g 0 ?rows ?s] =>
    destruct (notify_loop_run g rows 0 s) as (st3 & -> & _) end.
  done.
Qed.

End MainFacts.

(** * The claims *)

Section Claims.

Import Reference.

(** C1. The load does not tell absence from the other read failures of
    the store service, as the claim and the comments of the code have it
    ("load records file if it exists or initialize it"). The handler catches
    every client error: the run starts from an empty store, and goes on to
    fetch the feed, when the object is absent and also when the read ends in
    any other client error, whatever its code and whether or not the object
    exists. Only a read error that is not a client error, or a body that
    cannot be read as a table, ends the run with that exception, after the
    read and nothing else. *)
Theorem store_read_errors to_numeric to_datetime env opts st :
  let b := bucket_name opts in
  let k := records_file_name opts in
  let st1 := record_event (EvGetObject b k) st in
  ((s3_get_fault env = None /\ s3_objects st !! (b, k) = None)
   \/ (exists code, s3_get_fault env = Some (ClientError code)) ->
   get_records env b k st = (Ok initialize_records, st1)
   /\ EvHttpGet ∈ trace (snd (main to_numeric to_datetime env opts st)))
  /\ (forall e, s3_get_fault env = Some e -> is_client_error e = false ->
        main to_numeric to_datetime env opts st = (Raise e, st1))
  /\ (forall bytes, s3_get_fault env = None ->
        s3_objects st !! (b, k) = Some (OtherBody bytes) ->
        main to_numeric to_datetime env opts st = (Raise ParserError, st1)).
Proof.
  intros b k st1. subst b k st1. split; [|split].
  - intros Hempty.
    assert (get_records env (bucket_name opts) (records_file_name opts) st
            = (Ok initialize_records,
               record_event (EvGetObject (bucket_name opts) (records_file_name opts)) st))
      as Hload
      by (destruct Hempty as [[Hf Hk]|[code Hf]]; by rewrite get_records_run, Hf, ?Hk).
    split; [done|]. by eapply main_fetches_after_load.
  - intros e Hf He. apply main_load_failure. by rewrite get_records_run, Hf, He.
  - intros bytes Hf Hk. apply main_load_failure. by rewrite get_records_run, Hf, Hk.
Qed.

Lemma store_read_errors_witness :
  let env := world (Some BotoCoreError) None (feed_of [zenith]) (fun _ _ => true) in
  s3_get_fault env = Some BotoCoreError
  /\ is_client_error BotoCoreError = false
  /\ run env default_options (start bucket_with_history)
     = (Raise BotoCoreError,
        record_event (EvGetObject "pac-watch-records" "records.csv")
          (start bucket_with_history)).
Proof.
  intros env. split; [reflexivity|]. split; [reflexivity|].
  exact (proj1 (proj2 (store_read_errors decimal_amount iso_date env
                         default_options (start bucket_with_history)))
           BotoCoreError eq_refl eq_refl).
Defined.

(** C1, the failing input. The store object exists, with a record of an
    earlier run, and reading it is denied: a read error other than absence.
    The store is taken to be empty, the run goes on to its normal end, and
    its write replaces the object by the new contributions alone: the
    earlier record is lost. *)
Lemma access_denied_reads_as_empty_store :
  let env := world (Some (ClientError "AccessDenied")) None (feed_of [zenith])
               (fun _ _ => true) in
  let st := start bucket_with_history in
  s3_objects st !! store_key = Some (CsvBody [stored acme_fields])
  /\ fst (fetch_object env "pac-watch-records" "records.csv" st)
     = Raise (ClientError "AccessDenied")
  /\ fst (get_records env "pac-watch-records" "records.csv" st) = Ok []
  /\ fst (run env default_options st) = Ok 0%Z
  /\ s3_objects (snd (run env default_options st)) !! store_key
     = Some (CsvBody [{| fields := zenith_fields; timestamp := Some march_10 |}]).
Proof. repeat split; vm_compute; reflexivity. Qed.

(** C2, as the code has it. The conversions work on whole columns: when a
    row that has its key fields carries an amount or a date that does not
    convert, normalisation raises and the run ends with that exception
    before anything is written or sent; when normalisation returns, every
    row that has its key fields is in the frame, converted, so no row is
    dropped for its amount or date. *)
Theorem conversion_failure_aborts_run to_numeric to_datetime env opts
    st records st1 entries st2 :
  get_records env (bucket_name opts) (records_file_name opts) st = (Ok records, st1) ->
  get_latest_expenditures env 10 st1 = (Ok (Some (JsonDict (Some entries))), st2) ->
  let kept := dropna_key_columns (map cells_of_entry entries) in
  (forall c, c ∈ kept ->
     to_numeric (amount c) = None
     \/ (exists s, date c = Some s /\ to_datetime s = None) ->
     normalize to_numeric to_datetime entries = Raise ValueError
     /\ main to_numeric to_datetime env opts st = (Raise ValueError, st2)
     /\ follows is_quiet st st2)
  /\ (forall latest_df,
        normalize to_numeric to_datetime entries = Ok latest_df ->
        Forall2 (converted to_numeric to_datetime) kept latest_df).
Proof.
  intros Hload Hfetch kept. split; [|intros; by apply normalize_Ok].
  intros c Hc Hbad.
  pose proof (normalize_conversion_failure to_numeric to_datetime _ _ Hc Hbad) as Hnorm.
  split; [done|].
  pose proof (get_latest_data_run to_numeric to_datetime env
                (trim_records (now env) (n_prev_days opts) records) _ _ _ _ Hfetch)
    as Hdata.
  pose proof (main_run to_numeric to_datetime env opts _ _ _ _ _ Hload Hdata) as Hmain.
  unfold latest_data_of in Hmain. rewrite Hnorm in Hmain. split; [done|].
  pose proof (get_latest_data_follows to_numeric to_datetime env
                (trim_records (now env) (n_prev_days opts) records) 10 st1) as F.
  rewrite Hdata in F. rewrite get_records_run in Hload. injection Hload as _ <-.
  eapply follows_trans; [|exact F]. by apply follows_record_event.
Qed.

Lemma conversion_failure_aborts_run_witness :
  let env := world None None (feed_of [acme; garbled]) (fun _ _ => true) in
  decimal_amount (a_amount garbled) = None
  /\ normalize decimal_amount iso_date [acme; garbled] = Raise ValueError
  /\ fst (run env default_options (start ∅)) = Raise ValueError.
Proof.
  intros env.
  set (loaded := get_records env (bucket_name default_options)
                   (records_file_name default_options) (start ∅)).
  assert (loaded = (Ok [], snd loaded)) as Hload by (vm_compute; reflexivity).
  set (fetched := get_latest_expenditures env 10 (snd loaded)).
  assert (fetched = (Ok (Some (JsonDict (Some [acme; garbled]))), snd fetched))
    as Hfetch by (vm_compute; reflexivity).
  destruct (conversion_failure_aborts_run decimal_amount iso_date env default_options
              (start ∅) _ _ _ _ Hload Hfetch) as [H _].
  destruct (H (set_amount (cells_of_entry garbled) "abc")) as (Hn & Hm & _).
  - vm_compute. apply list_elem_of_In. right. left. reflexivity.
  - left. reflexivity.
  - split; [reflexivity|]. split; [exact Hn|]. unfold run. rewrite Hm. reflexivity.
Defined.

(** C2, counterexample. A feed of two entries, the second with the amount
    ["abc"]: nothing is dropped, normalisation raises, and the run ends
    with the exception after the read and the fetch. *)
Lemma unparseable_amount_aborts_run :
  let env := world None None (feed_of [acme; garbled]) (fun _ _ => true) in
  blank_to_na (a_amount garbled) = Some "abc"
  /\ decimal_amount "abc" = None
  /\ normalize decimal_amount iso_date [acme] = Ok [acme_fields]
  /\ normalize decimal_amount iso_date [acme; garbled] = Raise ValueError
  /\ fst (run env default_options (start ∅)) = Raise ValueError
  /\ history (snd (run env default_options (start ∅)))
     = [EvGetObject "pac-watch-records" "records.csv"; EvHttpGet].
Proof. repeat split; vm_compute; reflexivity. Qed.

(** C3. A typed record is in the deduplicator's output exactly when its
    feed-sourced fields are those of a fresh record that no record of the
    store has, and it carries the timestamp of the run; so a fresh record
    appears in the output exactly when no record of the store equals it on
    the feed-sourced fields; hence the output is empty when every fresh
    record is in the store; and [get_latest_data] then returns the empty
    frame, not [None] and not an exception. *)
Theorem new_contributions_are_the_unseen to_numeric to_datetime env stamp
    latest_df records_df :
  (forall c,
     c ∈ new_contributions stamp latest_df records_df <->
     fields c ∈ latest_df
     /\ (forall r, r ∈ records_df -> fields r <> fields c)
     /\ timestamp c = Some stamp)
  /\ (forall l, l ∈ latest_df ->
        (exists c, c ∈ new_contributions stamp latest_df records_df /\ fields c = l)
        <-> (forall r, r ∈ records_df -> fields r <> l))
  /\ ((forall l, l ∈ latest_df -> exists r, r ∈ records_df /\ fields r = l) ->
      new_contributions stamp latest_df records_df = []
      /\ forall n_retries st entries st',
           get_latest_expenditures env n_retries st
           = (Ok (Some (JsonDict (Some entries))), st') ->
           normalize to_numeric to_datetime entries = Ok latest_df ->
           stamp = now env ->
           get_latest_data to_numeric to_datetime env records_df n_retries st
           = (Ok (Some []), st')).
Proof.
  split; [intros c; apply elem_of_new_contributions|]. split.
  - intros l Hl. split.
    + intros (c & Hc & <-). by apply elem_of_new_contributions in Hc as (_ & ? & _).
    + intros Hnew. exists {| fields := l; timestamp := Some stamp |}.
      split; [|done]. by apply elem_of_new_contributions.
  - intros Hsub. pose proof (new_contributions_subset stamp _ _ Hsub) as Hnil.
    split; [done|]. intros n_retries st entries st' Hfetch Hnorm ->.
    rewrite (get_latest_data_run _ _ _ _ _ _ _ _ Hfetch).
    unfold latest_data_of. by rewrite Hnorm, Hnil.
Qed.

Lemma new_contributions_are_the_unseen_witness :
  (forall l, l ∈ [acme_fields] ->
     exists r, r ∈ [stored zenith_fields; stored acme_fields] /\ fields r = l)
  /\ new_contributions march_10 [acme_fields]
       [stored zenith_fields; stored acme_fields] = []
  /\ new_contributions march_10 [acme_fields; zenith_fields] [stored acme_fields]
     = [{| fields := zenith_fields; timestamp := Some march_10 |}].
Proof.
  assert (forall l, l ∈ [acme_fields] ->
            exists r, r ∈ [stored zenith_fields; stored acme_fields] /\ fields r = l)
    as H.
  { intros l Hl. apply list_elem_of_singleton in Hl as ->.
    exists (stored acme_fields). split; [|reflexivity].
    apply elem_of_cons. right. apply elem_of_cons. by left. }
  split; [exact H|]. split; [|reflexivity].
  exact (proj1 (proj2 (proj2 (new_contributions_are_the_unseen decimal_amount
                                iso_date
                                (world None None (feed_of []) (fun _ _ => true))
                                march_10 [acme_fields]
                                [stored zenith_fields; stored acme_fields]))
                  H)).
Defined.

(** C4. With a prior cumulative amount that does not exceed the current
    amount, a row whose first text is over the limit (here: whose purpose
    note alone is) gets no text at all: the shortened rebuild tests only
    that the prior amount is supplied, and then reads [record_amount] and
    [time_string], which the first test left unbound. The claim has the
    rebuild return the short sentence without the cumulative clause. *)
Theorem shortened_rebuild_reads_unbound_locals row s n_prev_days char_limit :
  (1 < length (Str.split ", " (row_candname row)))%nat ->
  (3 <= String.length (row_district row))%nat ->
  (s <= row_amount row)%Z ->
  (char_limit < Str.len (row_note row))%Z ->
  get_tweet_body row (Some s) n_prev_days char_limit = Raise UnboundLocalError.
Proof.
  intros Hparts Hdistrict Hs Hlong.
  unfold get_tweet_body, mbind, result_bind, rbind.
  destruct (nth_error _ 1) as [firstname|] eqn:E1;
    [|apply nth_error_None in E1; lia].
  destruct (String.get 2 _) as [third|] eqn:E2;
    [|apply get_None in E2; lia].
  assert ((row_amount row <? s)%Z = false) as -> by lia.
  match goal with |- context [(char_limit <? Str.len ?b)%Z] =>
    assert ((char_limit <? Str.len b)%Z = true) as ->
  end; [|done].
  apply Z.ltb_lt. eapply Z.lt_le_trans; [exact Hlong|].
  rewrite <- len_lower. apply primary_sentence_longer_than_purpose.
Qed.

Lemma shortened_rebuild_reads_unbound_locals_witness :
  (1 < length (Str.split ", " (row_candname long_row)))%nat
  /\ (3 <= String.length (row_district long_row))%nat
  /\ (5000 <= row_amount long_row)%Z
  /\ (280 < Str.len (row_note long_row))%Z
  /\ get_tweet_body long_row (Some 5000%Z) 30 280 = Raise UnboundLocalError.
Proof.
  assert (1 < length (Str.split ", " (row_candname long_row)))%nat as H1
    by (vm_compute; lia).
  assert (3 <= String.length (row_district long_row))%nat as H2
    by (vm_compute; lia).
  assert (5000 <= row_amount long_row)%Z as H3 by (vm_compute; discriminate).
  assert (280 < Str.len (row_note long_row))%Z as H4 by (vm_compute; reflexivity).
  repeat (split; [assumption|]).
  exact (shortened_rebuild_reads_unbound_locals long_row 5000%Z 30%Z 280%Z H1 H2 H3 H4).
Defined.

(** The same defect seen from [main]: on a first run, the cumulative amount
    of a contribution is its own amount, so a contribution whose text is over
    the limit is reported as not processed and nothing is sent for it. *)
Example long_note_contribution_is_never_sent :
  let wordy := entry "Acme.com PAC" "Supports" "Smith, John" "CAS1" "5000" long_note
                 "D" "2024-03-01" in
  let final := run (world None None (feed_of [wordy]) (fun _ _ => true))
                 default_options (start ∅) in
  fst final = Ok 0%Z
  /\ filter is_tweet (trace (snd final)) = []
  /\ hd_error (trace (snd final)) = Some (EvCouldNotProcess 0 long_row).
Proof. repeat split; vm_compute; reflexivity. Qed.

(** C5. A text the renderer returns is never longer than the character
    limit (a limit is not negative), whatever the lengths of the row's
    fields, so also when they are at most 500 characters; and the renderer
    does return a text for a row with a ["last, first"] name and a district
    code of three characters or more, when the prior amount is absent or
    exceeds the current one. *)
Theorem rendered_length_within_limit row sum_prev n_prev_days char_limit :
  (0 <= char_limit)%Z ->
  (forall body,
     get_tweet_body row sum_prev n_prev_days char_limit = Ok body ->
     (Str.len body <= char_limit)%Z)
  /\ ((1 < length (Str.split ", " (row_candname row)))%nat ->
      (3 <= String.length (row_district row))%nat ->
      sum_prev = None \/ (exists s, sum_prev = Some s /\ (row_amount row < s)%Z) ->
      exists body,
        get_tweet_body row sum_prev n_prev_days char_limit = Ok body
        /\ (Str.len body <= char_limit)%Z).
Proof.
  intros Hlimit.
  assert (forall body,
            get_tweet_body row sum_prev n_prev_days char_limit = Ok body ->
            (Str.len body <= char_limit)%Z) as Hbound.
  { intros body [rest ->]%get_tweet_body_Ok. by apply truncate_bound. }
  split; [done|]. intros Hparts Hdistrict Hsum.
  cut (exists body, get_tweet_body row sum_prev n_prev_days char_limit = Ok body).
  { intros [body Hb]. eauto. }
  unfold get_tweet_body, mbind, result_bind, rbind.
  destruct (nth_error _ 1) as [firstname|] eqn:E1;
    [|apply nth_error_None in E1; lia].
  destruct (String.get 2 _) as [third|] eqn:E2; [|apply get_None in E2; lia].
  destruct Hsum as [->|(s & -> & Hs)].
  - destruct (char_limit <? _)%Z; by eexists.
  - assert ((row_amount row <? s)%Z = true) as -> by lia.
    destruct (char_limit <? _)%Z; by eexists.
Qed.

Lemma rendered_length_within_limit_witness :
  (0 <= 40)%Z
  /\ get_tweet_body long_row (Some 9000%Z) 30 40
     = Ok "Acme dot com PAC spends $5,000 support J"
  /\ (Str.len "Acme dot com PAC spends $5,000 support J" <= 40)%Z.
Proof.
  split; [lia|]. split; [reflexivity|].
  apply (proj1 (rendered_length_within_limit long_row (Some 9000%Z) 30%Z 40%Z
                  ltac:(lia))).
  reflexivity.
Defined.

(** C6, as the code has it. Retention trimming keeps exactly the records
    that have a disclosure date and whose date is not strictly earlier than
    [now - windowDays]; it is a total function; and trimming twice with the
    same cutoff gives what trimming once gives. *)
Theorem trim_records_keeps_dated_in_window now n_prev_days records_df :
  (forall r,
     r ∈ trim_records now n_prev_days records_df <->
     r ∈ records_df
     /\ exists d, date (fields r) = Some d
                  /\ date_lt (now - timedelta_days n_prev_days) r = false)
  /\ trim_records now n_prev_days (trim_records now n_prev_days records_df)
     = trim_records now n_prev_days records_df.
Proof.
  split; [|apply trim_records_idemp].
  intros r. rewrite elem_of_trim_records. unfold date_lt.
  split; intros [Hin (d & Hd & H)]; (split; [done|]); exists d; (split; [done|]);
    rewrite Hd in *; lia.
Qed.

Lemma trim_records_keeps_dated_in_window_witness :
  stored acme_fields ∈ [stored undated_fields; stored acme_fields]
  /\ date_lt (march_10 - timedelta_days 30) (stored acme_fields) = false
  /\ stored acme_fields
     ∈ trim_records march_10 30 [stored undated_fields; stored acme_fields].
Proof.
  assert (stored acme_fields ∈ [stored undated_fields; stored acme_fields]) as Hin
    by (apply elem_of_cons; right; apply elem_of_cons; by left).
  split; [exact Hin|]. split; [reflexivity|].
  apply (proj1 (trim_records_keeps_dated_in_window march_10 30
                  [stored undated_fields; stored acme_fields])).
  split; [exact Hin|]. eexists. split; reflexivity.
Defined.

(** C6, counterexample. A feed entry with a blank date passes
    normalisation and becomes a record without a date; in the store, that
    record is not strictly earlier than the cutoff, and trimming removes
    it. *)
Lemma undated_record_is_trimmed :
  normalize decimal_amount iso_date [undated] = Ok [undated_fields]
  /\ date_lt (march_10 - timedelta_days 30) (stored undated_fields) = false
  /\ trim_records march_10 30 [stored undated_fields] = [].
Proof. repeat split; reflexivity. Qed.

(** C7. Once the store is loaded and the fetch has ended, [main] returns
    1 when the fetch gave nothing or something that is not a JSON object,
    and these are the only runs that return 1. When the feed is usable and
    the store write goes through, [main] returns 0 whatever the notifier
    does and however few new records there are (none included), and every
    row that meets the minimum amount and renders has had a delivery
    attempt by the end of the run, delivered or not. *)
Theorem main_exit_signal to_numeric to_datetime env opts st records st1 payload st2 :
  get_records env (bucket_name opts) (records_file_name opts) st = (Ok records, st1) ->
  get_latest_expenditures env 10 st1 = (Ok payload, st2) ->
  let trimmed := trim_records (now env) (n_prev_days opts) records in
  (payload = None \/ payload = Some JsonNonDict ->
   main to_numeric to_datetime env opts st = (Ok 1%Z, st2))
  /\ (forall entries latest_df,
        payload = Some (JsonDict (Some entries)) ->
        normalize to_numeric to_datetime entries = Ok latest_df ->
        s3_put_fault env = None ->
        let new_df := new_contributions (now env) latest_df trimmed in
        let grouped := grouped_records (store_to_write opts trimmed new_df) in
        exists st3,
          main to_numeric to_datetime env opts st = (Ok 0%Z, st3)
          /\ forall row body,
               row ∈ grouped_latest new_df ->
               (min_report_amt opts <= row_amount row)%Z ->
               rendering opts grouped row = Ok body ->
               tweet opts = true ->
               exists delivered, EvCreateTweet body delivered ∈ trace st3)
  /\ (forall z st',
        main to_numeric to_datetime env opts st = (Ok z, st') ->
        (z = 1%Z /\ (payload = None \/ payload = Some JsonNonDict))
        \/ (z = 0%Z /\ exists entries, payload = Some (JsonDict (Some entries)))).
Proof.
  intros Hload Hfetch trimmed.
  pose proof (get_latest_data_run to_numeric to_datetime env trimmed _ _ _ _ Hfetch)
    as Hdata.
  pose proof (main_run to_numeric to_datetime env opts _ _ _ _ _ Hload Hdata) as Hmain.
  split; [|split].
  - intros [->| ->]; exact Hmain.
  - intros entries latest_df -> Hnorm Hput new_df grouped.
    unfold latest_data_of in Hmain. rewrite Hnorm, Hput in Hmain.
    cbv zeta in Hmain. fold trimmed new_df grouped in Hmain.
    destruct (notify_loop_run env opts grouped (grouped_latest new_df) 0
                (after_put (bucket_name opts) (records_file_name opts)
                   (store_to_write opts trimmed new_df) st2))
      as (st3 & Hloop & _ & Hsent).
    rewrite Hloop in Hmain. by exists st3.
  - intros z st' Hz. rewrite Hmain in Hz.
    destruct payload as [[|[entries|]]|]; simpl in Hz.
    + injection Hz as <- _. left. auto.
    + destruct (normalize _ _ _); [|done].
      destruct (s3_put_fault env); [done|]. injection Hz as <- _.
      right. split; [done|]. by eexists.
    + done.
    + injection Hz as <- _. left. auto.
Qed.

Lemma main_exit_signal_witness :
  let env := world None None (feed_of [acme; zenith]) (fun _ _ => false) in
  fst (run env default_options (start ∅)) = Ok 0%Z
  /\ exists delivered,
       EvCreateTweet "Zenith Fund spends $1,200 on mailers oppose Mary Jones (R-TX07)."
         delivered
       ∈ trace (snd (run env default_options (start ∅))).
Proof.
  intros env.
  set (loaded := get_records env (bucket_name default_options)
                   (records_file_name default_options) (start ∅)).
  assert (loaded = (Ok [], snd loaded)) as Hload by (vm_compute; reflexivity).
  set (fetched := get_latest_expenditures env 10 (snd loaded)).
  assert (fetched = (Ok (Some (JsonDict (Some [acme; zenith]))), snd fetched))
    as Hfetch by (vm_compute; reflexivity).
  destruct (main_exit_signal decimal_amount iso_date env default_options (start ∅)
              _ _ _ _ Hload Hfetch) as (_ & H & _).
  assert (normalize decimal_amount iso_date [acme; zenith]
          = Ok [acme_fields; zenith_fields]) as Hnorm by (vm_compute; reflexivity).
  destruct (H [acme; zenith] _ eq_refl Hnorm eq_refl) as (st3 & Hmain & Hsent).
  unfold run. rewrite Hmain. split; [reflexivity|].
  apply (Hsent {| row_pacshort := "Zenith Fund"; row_suppopp := "Opposes";
                  row_candname := "Jones, Mary"; row_district := "TX07";
                  row_party := "R"; row_note := "Mailers"; row_amount := 1200 |}).
  - vm_compute. apply list_elem_of_In. right. left. reflexivity.
  - vm_compute. discriminate.
  - reflexivity.
  - reflexivity.
Defined.

(** C8. On a run that loads the store and gets new-record data, nothing is
    written or sent before the write; the write is the one [put_object] of
    the run and comes before every delivery attempt; what is written is
    the trimmed store with the new records, or the trimmed store alone when
    the record option is off. When the write goes through, the run returns
    0, the store object holds what was written and every other object is
    as it was; when it does not, the run ends there with its exception. *)
Theorem store_written_once_before_notifying to_numeric to_datetime env opts
    st records st1 latest_df st2 :
  get_records env (bucket_name opts) (records_file_name opts) st = (Ok records, st1) ->
  get_latest_data to_numeric to_datetime env
    (trim_records (now env) (n_prev_days opts) records) 10 st1
  = (Ok (Some latest_df), st2) ->
  let trimmed := trim_records (now env) (n_prev_days opts) records in
  let written := store_to_write opts trimmed latest_df in
  let key := (bucket_name opts, records_file_name opts) in
  (record opts = false -> written = trimmed)
  /\ follows is_quiet st st2
  /\ exists r st3 after,
       main to_numeric to_datetime env opts st = (r, st3)
       /\ trace st3
          = after ++ EvPutObject (bucket_name opts) (records_file_name opts) written
                     :: trace st2
       /\ Forall (fun ev => is_put ev = false) after
       /\ match s3_put_fault env with
          | None =>
              r = Ok 0%Z
              /\ s3_objects st3 = <[key := CsvBody written]> (s3_objects st)
              /\ forall other, other <> key ->
                   s3_objects st3 !! other = s3_objects st !! other
          | Some e =>
              r = Raise e /\ after = [] /\ s3_objects st3 = s3_objects st
          end.
Proof.
  intros Hload Hdata trimmed written key.
  pose proof (main_run to_numeric to_datetime env opts _ _ _ _ _ Hload Hdata) as Hmain.
  cbv zeta in Hmain.
  assert (follows is_quiet st st2) as Hquiet.
  { pose proof (get_latest_data_follows to_numeric to_datetime env trimmed 10 st1) as F.
    subst trimmed. rewrite Hdata in F.
    rewrite get_records_run in Hload. injection Hload as _ <-.
    eapply follows_trans; [|exact F]. by apply follows_record_event. }
  split; [by unfold written, store_to_write; intros ->|].
  split; [done|].
  destruct Hquiet as [Hobjects _].
  subst trimmed written key.
  revert Hmain. destruct (s3_put_fault env) as [e|]; intros Hmain.
  - eexists _, _, []. split; [exact Hmain|]. split; [done|]. split; [done|].
    done.
  - match type of Hmain with context [notify_loop env opts ?g 0 ?rows ?s] =>
      destruct (notify_loop_run env opts g rows 0 s)
        as (st3 & Hloop & [Hobj (after & Htrace & Hafter)] & _)
    end.
    rewrite Hloop in Hmain. cbn [snd] in Hmain.
    eexists _, _, after. split; [exact Hmain|]. split; [done|]. split; [done|].
    split; [done|].
    match goal with |- s3_objects _ = ?m /\ _ =>
      assert (s3_objects st3 = m) as -> by (by rewrite Hobj; simpl; rewrite Hobjects)
    end.
    split; [done|]. intros other Hother. by rewrite lookup_insert_ne.
Qed.

Lemma store_written_once_before_notifying_witness :
  let env := world None None (feed_of [zenith]) (fun _ _ => true) in
  let final := run env record_off (start bucket_with_history) in
  fst final = Ok 0%Z
  /\ s3_objects (snd final) !! store_key = Some (CsvBody [stored acme_fields])
  /\ s3_objects (snd final) !! other_key = Some (OtherBody "keep")
  /\ length (filter is_put (trace (snd final))) = 1%nat.
Proof.
  intros env final.
  set (loaded := get_records env (bucket_name record_off) (records_file_name record_off)
                   (start bucket_with_history)).
  assert (loaded = (Ok [stored acme_fields], snd loaded)) as Hload
    by (vm_compute; reflexivity).
  set (fetched := get_latest_data decimal_amount iso_date env
                    (trim_records (now env) (n_prev_days record_off)
                       [stored acme_fields]) 10 (snd loaded)).
  assert (fetched
          = (Ok (Some [{| fields := zenith_fields; timestamp := Some march_10 |}]),
             snd fetched)) as Hdata by (vm_compute; reflexivity).
  destruct (store_written_once_before_notifying decimal_amount iso_date env record_off
              (start bucket_with_history) _ _ _ _ Hload Hdata)
    as (Hoff & _ & r & st3 & after & Hmain & Htrace & Hafter & Hcase).
  assert (s3_put_fault env = None) as Hput by reflexivity.
  rewrite Hput in Hcase. destruct Hcase as (-> & Hobj & Hframe).
  unfold final, run. rewrite Hmain. cbn [fst snd].
  split; [reflexivity|]. split; [|split].
  - rewrite Hobj, Hoff by reflexivity.
    rewrite lookup_insert_eq. vm_compute. reflexivity.
  - rewrite (Hframe other_key) by discriminate. vm_compute. reflexivity.
  - rewrite Htrace, filter_app.
    assert (filter is_put after = []) as ->.
    { clear -Hafter. induction Hafter as [|ev l Hev _ IH]; [reflexivity|].
      rewrite filter_cons_False; [exact IH|]. rewrite Hev. exact (fun H => H). }
    vm_compute. reflexivity.
Defined.

(** C9. Every one of the five domain suffixes is gone from the escaped
    contributor name, whatever the name; in a name with no other dot, the
    suffix is replaced by [" dot "] and its letters, so ["Acme.com PAC"]
    becomes ["Acme dot com PAC"]; and the escaped name is the one every
    returned text starts with, before the text is cut to the limit. *)
Theorem domain_suffixes_escaped :
  (forall pac,
     Forall (fun suffix => Str.contains suffix (escape_pac pac) = false)
       domain_suffixes)
  /\ (forall a b,
        has_char "." a = false -> has_char "." b = false ->
        Forall (fun '(suffix, replacement) =>
                  escape_pac (a +:+ suffix +:+ b) = a +:+ replacement +:+ b)
          domain_escapes)
  /\ escape_pac "Acme.com PAC" = "Acme dot com PAC"
  /\ (forall row sum_prev n_prev_days char_limit body,
        get_tweet_body row sum_prev n_prev_days char_limit = Ok body ->
        exists rest,
          body = truncate char_limit (escape_pac (row_pacshort row) +:+ rest)).
Proof.
  split; [exact escape_pac_no_suffix|]. split; [exact escape_pac_one_dot|].
  split; [done|]. exact get_tweet_body_Ok.
Qed.

Lemma domain_suffixes_escaped_witness :
  get_tweet_body acme_row None 30 280
  = Ok "Acme dot com PAC spends $5,000 on tv ads support John Smith (D-CA)."
  /\ exists rest,
       "Acme dot com PAC spends $5,000 on tv ads support John Smith (D-CA)."
       = truncate 280 (escape_pac (row_pacshort acme_row) +:+ rest).
Proof.
  split; [reflexivity|].
  exact (proj2 (proj2 (proj2 domain_suffixes_escaped)) acme_row None 30%Z 280%Z _
           eq_refl).
Defined.

(** C10. On a row whose district code has fewer than three characters the
    renderer raises instead of returning a text, whatever its other
    arguments. In the loop, the handler then records the row as not
    processed (when the row meets the minimum amount; below it the row is
    passed over before rendering), nothing is sent for it, and the loop
    goes on with the next row. *)
Theorem short_district_row_is_skipped env opts grouped i row rows st :
  (String.length (row_district row) < 3)%nat ->
  (forall sum_prev n_prev_days char_limit,
     get_tweet_body row sum_prev n_prev_days char_limit = Raise IndexError)
  /\ (let st' := if (min_report_amt opts <=? row_amount row)%Z
                 then record_event (EvCouldNotProcess i row) st else st in
      notify_row env opts grouped i row st = (Ok tt, st')
      /\ notify_loop env opts grouped i (row :: rows) st
         = notify_loop env opts grouped (S i) rows st').
Proof.
  intros H. split; [intros; by apply get_tweet_body_short_district|].
  assert (notify_row env opts grouped i row st =
          (Ok tt, if (min_report_amt opts <=? row_amount row)%Z
                  then record_event (EvCouldNotProcess i row) st else st)) as Hrow.
  { eapply notify_row_raise. unfold rendering.
    by apply get_tweet_body_short_district. }
  split; [done|]. cbn [notify_loop]. unfold mbind, M_bind. by rewrite Hrow.
Qed.

Lemma short_district_row_is_skipped_witness :
  (String.length (row_district short_district_row) < 3)%nat
  /\ get_tweet_body short_district_row None 30 280 = Raise IndexError
  /\ notify_row (world None None (feed_of []) (fun _ _ => true)) default_options
       [] 0 short_district_row (start ∅)
     = (Ok tt, record_event (EvCouldNotProcess 0 short_district_row) (start ∅)).
Proof.
  assert (String.length (row_district short_district_row) < 3)%nat as H
    by (vm_compute; lia).
  pose proof (short_district_row_is_skipped
                (world None None (feed_of []) (fun _ _ => true)) default_options
                [] 0%nat short_district_row [] (start ∅) H) as [H1 [H2 _]].
  split; [exact H|]. split; [apply H1|exact H2].
Defined.

End Claims.

(** * Further lemmas *)

(** ** Comparisons and grouping *)

Section CompareFacts.

Lemma lex_assoc a b c : lex (lex a b) c = lex a (lex b c).
Proof. by destruct a. Qed.

Lemma CompareLaws_ext {K} (c1 c2 : K -> K -> comparison) :
  (forall a b, c1 a b = c2 a b) -> CompareLaws c2 -> CompareLaws c1.
Proof.
  intros E [H1 H2 H3]. split; intros *; rewrite ?E; auto.
  intros. eapply H3; eauto.
Qed.

Lemma compare_refl {K} (compare : K -> K -> comparison) `{!CompareLaws compare} a :
  compare a a = Eq.
Proof. by apply compare_eq. Qed.

Lemma compare_gt_lt {K} (compare : K -> K -> comparison) `{!CompareLaws compare} a b :
  compare a b = Gt <-> compare b a = Lt.
Proof. rewrite (compare_antisym (compare:=compare) a b). by destruct (compare a b). Qed.

Lemma string_compare_as_OT a b : String.compare a b = OrdersEx.String_as_OT.compare a b.
Proof.
  revert b; induction a as [|x a IH]; intros [|y b]; simpl; rewrite ?IH; done.
Qed.

#[global] Instance string_compare_laws : CompareLaws String.compare.
Proof.
  split.
  - intros a b. split; [apply String.compare_eq_iff|].
    intros ->. pose proof (String.compare_antisym b b) as H.
    by destruct (String.compare b b).
  - intros a b. apply String.compare_antisym.
  - intros a b c. rewrite !string_compare_as_OT.
    apply (@transitivity _ _ (@StrictOrder_Transitive _ _ OrdersEx.String_as_OT.lt_strorder)).
Qed.

#[global] Instance pair_compare_laws {A B} (ca : A -> A -> comparison)
    (cb : B -> B -> comparison) `{!CompareLaws ca} `{!CompareLaws cb} :
  CompareLaws (pair_compare ca cb).
Proof.
  split.
  - intros [a b] [a' b']. unfold pair_compare, lex. simpl. split.
    + destruct (ca a a') eqn:E; try done. intros F.
      apply compare_eq in E, F. by subst.
    + intros [= -> ->]. by rewrite (compare_refl ca), (compare_refl cb).
  - intros [a b] [a' b']. unfold pair_compare, lex. simpl.
    rewrite (compare_antisym (compare:=ca) a a'), (compare_antisym (compare:=cb) b b').
    by destruct (ca a a').
  - intros [a b] [a' b'] [a'' b'']. unfold pair_compare, lex. simpl.
    destruct (ca a a') eqn:E1, (ca a' a'') eqn:E2; intros H1 H2; try done.
    + apply compare_eq in E1, E2. subst. rewrite (compare_refl ca).
      by apply (compare_trans (compare:=cb) _ _ _ H1).
    + apply compare_eq in E1. subst. by rewrite E2.
    + apply compare_eq in E2. subst. by rewrite E1.
    + by rewrite (compare_trans (compare:=ca) _ _ _ E1 E2).
Qed.

#[global] Instance compare5_laws : CompareLaws compare5.
Proof.
  eapply (CompareLaws_ext _
            (pair_compare (pair_compare (pair_compare (pair_compare String.compare
               String.compare) String.compare) String.compare) String.compare));
    [|apply _].
  intros [[[[a1 a2] a3] a4] a5] [[[[b1 b2] b3] b4] b5].
  unfold compare5, pair_compare. simpl. by rewrite !lex_assoc.
Qed.

#[global] Instance compare6_laws : CompareLaws compare6.
Proof.
  eapply (CompareLaws_ext _ (pair_compare compare5 String.compare)); [|apply _].
  by intros [a n] [b m].
Qed.

End CompareFacts.

Section GroupByFacts.

Context {K : Type} `{EqDecision K} (compare : K -> K -> comparison)
  `{!CompareLaws compare}.

Lemma add_to_group_keys (Q : K -> Prop) k a g :
  Q k -> Forall (fun x => Q (fst x)) g ->
  Forall (fun x => Q (fst x)) (add_to_group compare k a g).
Proof.
  intros Hk. induction 1 as [|[k' s] g Hx Hg IH]; simpl; [by repeat constructor|].
  destruct (compare k k'); repeat constructor; auto.
Qed.

Lemma add_to_group_sorted k a g :
  StronglySorted (key_lt compare) g ->
  StronglySorted (key_lt compare) (add_to_group compare k a g).
Proof.
  induction 1 as [|[k' s] g Hs IH Hall]; simpl; [by repeat constructor|].
  destruct (compare k k') eqn:E.
  - constructor; [done|]. exact Hall.
  - constructor; [by constructor|]. constructor; [done|].
    eapply Forall_impl; [exact Hall|]. intros [k2 s2]. unfold key_lt. simpl.
    by apply (compare_trans (compare:=compare)).
  - constructor; [done|].
    apply (add_to_group_keys (fun x => compare k' x = Lt)); [|done].
    by apply (compare_gt_lt compare).
Qed.

Lemma groupby_sum_sorted key df :
  StronglySorted (key_lt compare) (groupby_sum compare key df).
Proof.
  unfold groupby_sum. generalize (@nil (K * Z)) (SSorted_nil (key_lt compare)).
  induction df as [|r df IH]; intros g Hg; simpl; [done|].
  apply IH. destruct (key r); [by apply add_to_group_sorted|done].
Qed.

Lemma find_group_below k g :
  Forall (fun x => compare k (fst x) = Lt) g -> find_group compare k g = None.
Proof.
  induction 1 as [|[k' s] g Hx _ IH]; simpl; [done|]. simpl in Hx. by rewrite Hx.
Qed.

Lemma find_group_add_ne k k' a g :
  k <> k' ->
  find_group compare k (add_to_group compare k' a g) = find_group compare k g.
Proof.
  intros Hne.
  assert (compare k k' <> Eq) as Hk by (by intros ?%compare_eq).
  induction g as [|[k2 s] g IH]; simpl.
  - by destruct (compare k k').
  - destruct (compare k' k2) eqn:E; simpl.
    + apply compare_eq in E as <-. by destruct (compare k k').
    + by destruct (compare k k').
    + by rewrite IH.
Qed.

Lemma find_group_add_eq k a g :
  StronglySorted (key_lt compare) g ->
  find_group compare k (add_to_group compare k a g)
  = Some (default 0%Z (find_group compare k g) + a)%Z.
Proof.
  induction 1 as [|[k2 s] g Hs IH Hall]; simpl.
  - by rewrite (compare_refl compare).
  - destruct (compare k k2) eqn:E; simpl.
    + by rewrite E.
    + rewrite (compare_refl compare), find_group_below; [done|].
      eapply Forall_impl; [exact Hall|]. intros [k3 s3]. unfold key_lt. simpl.
      by apply (compare_trans (compare:=compare)).
    + by rewrite E.
Qed.

Lemma find_group_elem_of k s g :
  StronglySorted (key_lt compare) g ->
  (k, s) ∈ g <-> find_group compare k g = Some s.
Proof.
  induction 1 as [|[k2 s2] g Hs IH Hall]; simpl.
  - split; [by intros ?%elem_of_nil|done].
  - rewrite elem_of_cons, IH. destruct (compare k k2) eqn:E.
    + apply compare_eq in E as ->. split.
      * intros [[= ->]|Hf]; [done|].
        rewrite find_group_below in Hf; [done|exact Hall].
      * intros [= ->]. by left.
    + split; [|by right]. intros [[= -> ->]|?]; [|done].
      by rewrite (compare_refl compare) in E.
    + split; [|by right]. intros [[= -> ->]|?]; [|done].
      by rewrite (compare_refl compare) in E.
Qed.

(** The amount of each key in the grouped frame, read off the rows. *)
Lemma find_group_fold key k df : forall g,
  StronglySorted (key_lt compare) g ->
  find_group compare k
    (fold_left (fun groups r =>
                  match key r with
                  | Some k' => add_to_group compare k' (amount (fields r)) groups
                  | None => groups
                  end) df g)
  = match filter (fun r => key r = Some k) df with
    | [] => find_group compare k g
    | rows => Some (default 0%Z (find_group compare k g) + total_amount rows)%Z
    end.
Proof.
  induction df as [|r df IH]; intros g Hg; [done|].
  cbn [fold_left]. rewrite filter_cons. destruct (key r) as [k'|] eqn:Ek.
  - rewrite IH by (by apply add_to_group_sorted).
    destruct (decide (Some k' = Some k)) as [[= ->]|Hne].
    + rewrite find_group_add_eq by done.
      destruct (filter _ df); simpl; f_equal; lia.
    + rewrite find_group_add_ne by congruence. done.
  - rewrite IH by done. by destruct (decide (None = Some k)).
Qed.

Lemma find_group_groupby key k df :
  find_group compare k (groupby_sum compare key df)
  = match filter (fun r => key r = Some k) df with
    | [] => None
    | rows => Some (total_amount rows)
    end.
Proof.
  unfold groupby_sum. rewrite find_group_fold by constructor.
  by destruct (filter _ df).
Qed.

(** Two grouped frames that hold the same amount for every key are equal. *)
Lemma grouped_ext g1 : forall g2,
  StronglySorted (key_lt compare) g1 -> StronglySorted (key_lt compare) g2 ->
  (forall k, find_group compare k g1 = find_group compare k g2) -> g1 = g2.
Proof.
  induction g1 as [|[k1 s1] g1 IH]; intros [|[k2 s2] g2] H1 H2 Hf.
  - done.
  - specialize (Hf k2). simpl in Hf. by rewrite (compare_refl compare) in Hf.
  - specialize (Hf k1). simpl in Hf. by rewrite (compare_refl compare) in Hf.
  - inversion H1 as [|? ? Hs1 Hall1]; inversion H2 as [|? ? Hs2 Hall2]; subst.
    assert (forall k (g : list (K * Z)) k0,
              compare k k0 = Lt -> Forall (key_lt compare (k0, 0%Z)) g ->
              find_group compare k g = None) as Hbelow.
    { intros k g k0 Hlt Hall. apply find_group_below.
      eapply Forall_impl; [exact Hall|]. intros [k3 s3]. unfold key_lt. simpl.
      by apply (compare_trans (compare:=compare)). }
    assert (forall (k0 : K) (s s' : Z) (g : list (K * Z)),
              Forall (key_lt compare (k0, s)) g -> Forall (key_lt compare (k0, s')) g)
      as Hany by (intros; done).
    destruct (compare k1 k2) eqn:E.
    + apply compare_eq in E as ->.
      pose proof (Hf k2) as Hk. simpl in Hk. rewrite (compare_refl compare) in Hk.
      injection Hk as ->. f_equal. apply IH; [done|done|].
      intros k. specialize (Hf k). simpl in Hf.
      destruct (compare k k2) eqn:E; [|done|done].
      apply compare_eq in E as ->.
      rewrite !find_group_below; done.
    + exfalso. specialize (Hf k1). simpl in Hf.
      rewrite (compare_refl compare), E in Hf.
      rewrite (Hbelow k1 g2 k2) in Hf; [done|done|]. by eapply Hany.
    + exfalso. apply (compare_gt_lt compare) in E. specialize (Hf k2). simpl in Hf.
      rewrite (compare_refl compare), E in Hf.
      rewrite (Hbelow k2 g1 k1) in Hf; [done|done|]. by eapply Hany.
Qed.

Lemma total_amount_perm df1 df2 : df1 ≡ₚ df2 -> total_amount df1 = total_amount df2.
Proof. induction 1; simpl; lia. Qed.

Lemma total_grouped_add k a (g : list (K * Z)) :
  total_grouped (add_to_group compare k a g) = (a + total_grouped g)%Z.
Proof.
  induction g as [|[k' s] g IH]; simpl; [done|].
  destruct (compare k k'); simpl; lia.
Qed.

End GroupByFacts.

(** ** What the grouped frames hold *)

Section GroupedFacts.

Context {K : Type} `{EqDecision K} (compare : K -> K -> comparison)
  `{!CompareLaws compare}.

Lemma elem_of_groupby_sum key df k s :
  (k, s) ∈ groupby_sum compare key df
  <-> (exists r, r ∈ df /\ key r = Some k)
      /\ s = total_amount (filter (fun r => key r = Some k) df).
Proof.
  rewrite (find_group_elem_of compare k s _ (groupby_sum_sorted compare key df)).
  rewrite (find_group_groupby compare).
  destruct (filter (fun r => key r = Some k) df) as [|r rows] eqn:E.
  - split; [done|]. intros [(r & Hr & Hk) _].
    assert (r ∈ filter (fun r => key r = Some k) df) as Hin
      by (by apply list_elem_of_filter).
    rewrite E in Hin. by apply elem_of_nil in Hin.
  - split.
    + intros [= <-]. split; [|done]. exists r.
      assert (r ∈ filter (fun r => key r = Some k) df) as Hin
        by (rewrite E; by left).
      apply list_elem_of_filter in Hin as [? ?]. done.
    + by intros [_ ->].
Qed.

Lemma groupby_sum_perm key df1 df2 :
  df1 ≡ₚ df2 -> groupby_sum compare key df1 = groupby_sum compare key df2.
Proof.
  intros Hp. apply (grouped_ext compare); [by apply groupby_sum_sorted..|].
  intros k0. rewrite !(find_group_groupby compare).
  assert (filter (fun r => key r = Some k0) df1 ≡ₚ filter (fun r => key r = Some k0) df2)
    as Hf by (by rewrite Hp).
  destruct (filter _ df1) as [|r1 rows1].
  - apply Permutation_nil_l in Hf. by rewrite <- Hf.
  - destruct (filter _ df2) as [|r2 rows2].
    + by apply Permutation_nil_r in Hf.
    + by rewrite (total_amount_perm _ _ Hf).
Qed.

Lemma total_groupby_sum key df :
  total_grouped (groupby_sum compare key df)
  = total_amount (filter (fun r => is_Some (key r)) df).
Proof.
  unfold groupby_sum.
  assert (forall g,
            total_grouped
              (fold_left (fun groups r =>
                            match key r with
                            | Some k => add_to_group compare k (amount (fields r)) groups
                            | None => groups
                            end) df g)
            = (total_grouped g + total_amount (filter (fun r => is_Some (key r)) df))%Z)
    as H; [|by rewrite H].
  induction df as [|r df IH]; intros g; cbn [fold_left].
  - simpl. lia.
  - rewrite IH. destruct (key r) as [k0|] eqn:E.
    + rewrite filter_cons_True by (by rewrite E).
      rewrite (total_grouped_add compare). simpl. lia.
    + rewrite filter_cons_False by (rewrite E; by intros [? ?]). done.
Qed.

End GroupedFacts.

Section RowFacts.

Lemma group_cols_of_note r k6 :
  group_cols_note r = Some k6 -> group_cols r = Some (fst k6).
Proof.
  unfold group_cols_note. destruct (group_cols r) as [k5|]; [|done].
  destruct (note (fields r)); [|done]. by intros [= <-].
Qed.

Lemma elem_of_grouped_latest latest_df row :
  row ∈ grouped_latest latest_df
  <-> exists k6,
        (exists r, r ∈ latest_df /\ group_cols_note r = Some k6)
        /\ row = row_of_group
                   (k6, total_amount (filter (fun r => group_cols_note r = Some k6)
                                        latest_df)).
Proof.
  unfold grouped_latest. rewrite list_elem_of_fmap. split.
  - intros ([k6 s] & -> & Hg). apply (elem_of_groupby_sum compare6) in Hg as [Hr ->].
    by exists k6.
  - intros (k6 & Hr & ->). eexists. split; [done|].
    by apply (elem_of_groupby_sum compare6).
Qed.

End RowFacts.

(** ** The order of the frames *)

Section OrderFacts.

Lemma NoDup_keys_sorted {K} (compare : K -> K -> comparison) `{!CompareLaws compare}
    (g : list (K * Z)) :
  StronglySorted (key_lt compare) g -> NoDup (map fst g).
Proof.
  induction 1 as [|[k s] g Hs IH Hall]; simpl; constructor; [|done].
  intros Hin. apply list_elem_of_In, in_map_iff in Hin as ([k' s'] & E & Hin).
  simpl in E. subst k'. apply list_elem_of_In in Hin.
  rewrite Forall_forall in Hall. specialize (Hall _ Hin).
  unfold key_lt in Hall. simpl in Hall. by rewrite (compare_refl compare) in Hall.
Qed.

Lemma sort_before_trans a b c :
  sort_before a b = true -> sort_before b c = true -> sort_before a c = true.
Proof.
  unfold sort_before.
  destruct (date (fields a)), (date (fields b)), (date (fields c)); try done; lia.
Qed.

Lemma sort_before_total a b : sort_before a b = false -> sort_before b a = true.
Proof.
  unfold sort_before.
  destruct (date (fields a)), (date (fields b)); try done; lia.
Qed.

Lemma sort_insert_sorted x l :
  StronglySorted (fun a b => sort_before a b = true) l ->
  StronglySorted (fun a b => sort_before a b = true) (sort_insert x l).
Proof.
  induction 1 as [|y l Hs IH Hall]; simpl; [by repeat constructor|].
  destruct (sort_before x y) eqn:E.
  - constructor; [by constructor|]. constructor; [done|].
    eapply Forall_impl; [exact Hall|]. intros z. by apply sort_before_trans.
  - constructor; [done|]. rewrite sort_insert_perm.
    constructor; [by apply sort_before_total|done].
Qed.

Lemma sort_values_sorted l :
  StronglySorted (fun a b => sort_before a b = true) (sort_values l).
Proof.
  induction l as [|x l IH]; [constructor|].
  unfold sort_values in *. simpl. by apply sort_insert_sorted.
Qed.

End OrderFacts.

(** ** Retries *)

Section RetryFacts.

Variable env : Env.

Lemma concat_replicate_snoc {A} (blk : list A) m :
  concat (replicate m blk) ++ blk = concat (replicate (S m) blk).
Proof.
  induction m as [|m IH]; simpl; [by rewrite app_nil_r|].
  simpl in IH. by rewrite <- app_assoc, IH.
Qed.

Lemma get_json_loop_attempts wait_time k : forall data st,
  exists data' st' m,
    get_json_loop env wait_time k data st = (Ok data', st')
    /\ (m <= k)%nat
    /\ http_calls st' = (http_calls st + m)%nat
    /\ (m = 0%nat -> data' = data)
    /\ ((0 < m)%nat ->
        data = None /\ data' = http_response env (http_calls st + m - 1))
    /\ (forall i, (i + 1 < m)%nat -> http_response env (http_calls st + i) = None)
    /\ (data' = None -> data = None /\ m = k)
    /\ trace st' = concat (replicate m [EvHttpGet; EvSleep wait_time]) ++ trace st
    /\ s3_objects st' = s3_objects st
    /\ tweet_calls st' = tweet_calls st.
Proof.
  induction k as [|k IH]; intros data st; simpl.
  - exists data, st, 0%nat. repeat split; try done; try lia.
  - destruct data as [p|].
    + exists (Some p), st, 0%nat. repeat split; try done; try lia.
    + unfold mbind, M_bind, sleep, log, get_check_errors. cbn [record_event http_calls
        s3_objects tweet_calls trace].
      match goal with |- context [get_json_loop env wait_time k ?d ?s] =>
        destruct (IH d s) as (data' & st' & m & -> & Hm & Hc & H0 & H1 & Hn & HN & Ht & Ho & Htw)
      end.
      cbn [http_calls trace s3_objects tweet_calls] in *.
      exists data', st', (S m). split; [done|]. split; [lia|]. split; [lia|].
      split; [lia|]. split; [|split; [|split; [|split; [|done]]]].
      * intros _. split; [done|]. destruct m as [|m].
        -- rewrite H0 by done. f_equal. lia.
        -- destruct H1 as [_ ->]; [lia|]. f_equal. lia.
      * intros i Hi. destruct i as [|i].
        -- destruct H1 as [H1 _]; [lia|]. by rewrite Nat.add_0_r.
        -- replace (http_calls st + S i)%nat with (S (http_calls st) + i)%nat by lia.
           apply Hn. lia.
      * intros ->. split; [done|]. destruct (HN eq_refl) as [_ ->]. done.
      * rewrite Ht.
        change (EvHttpGet :: EvSleep wait_time :: trace st)
          with ([EvHttpGet; EvSleep wait_time] ++ trace st).
        by rewrite app_assoc, concat_replicate_snoc.
Qed.

Lemma send_tweet_loop_attempts message wait_time k : forall st t,
  trace st = EvCreateTweet message false :: t ->
  exists r st' m,
    send_tweet_loop env message k wait_time st = (Ok r, st')
    /\ (m <= k)%nat
    /\ tweet_calls st' = (tweet_calls st + m)%nat
    /\ r = match m with
           | O => false
           | S m' => create_tweet env (tweet_calls st + m') message
           end
    /\ (forall i, (i + 1 < m)%nat -> create_tweet env (tweet_calls st + i) message = false)
    /\ (r = false -> m = k)
    /\ trace st'
       = EvCreateTweet message r
           :: concat (replicate m [EvSleep wait_time; EvCreateTweet message false]) ++ t
    /\ s3_objects st' = s3_objects st
    /\ http_calls st' = http_calls st.
Proof.
  induction k as [|k IH]; intros st t Ht; simpl.
  - exists false, st, 0%nat. repeat split; try done; lia.
  - unfold mbind, M_bind, sleep, log, try_send_tweet.
    cbn [record_event http_calls s3_objects tweet_calls trace].
    destruct (create_tweet env (tweet_calls st) message) eqn:Hd.
    + eexists true, _, 1%nat. split; [reflexivity|].
      cbn [http_calls trace s3_objects tweet_calls].
      split; [lia|]. split; [lia|]. split; [by rewrite Nat.add_0_r, Hd|].
      split; [intros; lia|]. split; [done|]. split; [by rewrite Ht|done].
    + match goal with |- context [send_tweet_loop env message k wait_time ?s] =>
        destruct (IH s (EvSleep wait_time :: trace st) eq_refl)
          as (r & st' & m & -> & Hm & Hc & Hr & Hn & HN & Htr & Ho & Hh)
      end.
      cbn [http_calls trace s3_objects tweet_calls] in *.
      exists r, st', (S m). split; [done|]. split; [lia|]. split; [lia|]. split.
      { destruct m as [|m]; [by rewrite Nat.add_0_r, Hd|].
        rewrite Hr. f_equal. lia. }
      split.
      { intros i Hi. destruct i as [|i]; [by rewrite Nat.add_0_r|].
        replace (tweet_calls st + S i)%nat with (S (tweet_calls st) + i)%nat by lia.
        apply Hn. lia. }
      split; [intros Hf; rewrite (HN Hf); done|]. split; [|done].
      rewrite Htr, Ht.
      change (EvSleep wait_time :: EvCreateTweet message false :: t)
        with ([EvSleep wait_time; EvCreateTweet message false] ++ t).
      by rewrite app_assoc, concat_replicate_snoc.
Qed.

End RetryFacts.

(** ** What a run records *)

Section TraceFacts.

Variable to_numeric : string -> option Z.
Variable to_datetime : string -> option Z.
Variable env : Env.
Variable opts : Options.

Lemma events_between_app st st' evs :
  trace st' = evs ++ trace st -> events_between st st' = evs.
Proof.
  intros H. unfold events_between. rewrite H, length_app.
  replace (length evs + length (trace st) - length (trace st))%nat with (length evs)
    by lia.
  by rewrite take_app_length.
Qed.

Lemma send_tweet_attempts message n_retries wait_time st :
  exists r st' m,
    send_tweet env message n_retries wait_time st = (Ok r, st')
    /\ (m <= n_retries)%nat
    /\ tweet_calls st' = (tweet_calls st + 1 + m)%nat
    /\ r = create_tweet env (tweet_calls st + m) message
    /\ (forall i, (i < m)%nat -> create_tweet env (tweet_calls st + i) message = false)
    /\ (r = false -> m = n_retries)
    /\ trace st'
       = EvCreateTweet message r
           :: concat (replicate m [EvSleep wait_time; EvCreateTweet message false])
           ++ trace st
    /\ s3_objects st' = s3_objects st
    /\ http_calls st' = http_calls st.
Proof.
  unfold send_tweet, mbind, M_bind, try_send_tweet.
  destruct (create_tweet env (tweet_calls st) message) eqn:Hd.
  - eexists true, _, 0%nat. split; [reflexivity|]. cbn.
    split; [lia|]. split; [lia|]. split; [by rewrite Nat.add_0_r, Hd|].
    split; [intros; lia|]. done.
  - match goal with |- context [send_tweet_loop env message n_retries wait_time ?s] =>
      destruct (send_tweet_loop_attempts env message wait_time n_retries s (trace st)
                  eq_refl)
        as (r & st' & m & -> & Hm & Hc & Hr & Hn & HN & Htr & Ho & Hh)
    end.
    cbn [http_calls trace s3_objects tweet_calls] in *.
    exists r, st', m. split; [done|]. split; [done|]. split; [lia|]. split.
    { destruct m as [|m]; [by rewrite Nat.add_0_r, Hd|].
      rewrite Hr. f_equal. lia. }
    split.
    { intros i Hi. destruct i as [|i]; [by rewrite Nat.add_0_r|].
      replace (tweet_calls st + S i)%nat with (S (tweet_calls st) + i)%nat by lia.
      apply Hn. lia. }
    done.
Qed.

Lemma get_json_attempts n_retries wait_time st :
  exists data st' m,
    get_json env n_retries wait_time st = (Ok data, st')
    /\ (m <= n_retries - 1)%nat
    /\ http_calls st' = (http_calls st + 1 + m)%nat
    /\ data = http_response env (http_calls st + m)
    /\ (forall i, (i < m)%nat -> http_response env (http_calls st + i) = None)
    /\ (data = None -> m = (n_retries - 1)%nat)
    /\ trace st'
       = concat (replicate m [EvHttpGet; EvSleep wait_time]) ++ EvHttpGet :: trace st
    /\ s3_objects st' = s3_objects st
    /\ tweet_calls st' = tweet_calls st.
Proof.
  unfold get_json, mbind, M_bind, get_check_errors.
  match goal with |- context [get_json_loop env wait_time ?k ?d ?s] =>
    destruct (get_json_loop_attempts env wait_time k d s)
      as (data' & st' & m & -> & Hm & Hc & H0 & H1 & Hn & HN & Ht & Ho & Htw)
  end.
  cbn [http_calls trace s3_objects tweet_calls] in *.
  exists data', st', m. split; [done|]. split; [done|]. split; [lia|]. split.
  { destruct m as [|m]; [by rewrite H0, Nat.add_0_r|].
    destruct H1 as [_ ->]; [lia|]. f_equal. lia. }
  split.
  { intros i Hi. destruct i as [|i].
    - destruct H1 as [H1 _]; [lia|]. by rewrite Nat.add_0_r.
    - replace (http_calls st + S i)%nat with (S (http_calls st) + i)%nat by lia.
      apply Hn. lia. }
  split; [intros Hd; by destruct (HN Hd)|]. done.
Qed.

Lemma get_latest_data_trace records_df st :
  exists m,
    trace (snd (get_latest_data to_numeric to_datetime env records_df 10 st))
    = concat (replicate m [EvHttpGet; EvSleep 1]) ++ EvHttpGet :: trace st.
Proof.
  destruct (get_json_attempts 10 1 st) as (data & st' & m & H & _ & _ & _ & _ & _ & Ht & _).
  exists m. by rewrite (get_latest_data_run _ _ _ _ _ _ _ _ H).
Qed.

Lemma Forall_concat_replicate {A} (P : A -> Prop) blk m :
  Forall P blk -> Forall P (concat (replicate m blk)).
Proof. intros H. induction m; simpl; [done|]. by apply Forall_app. Qed.

(** The events of one row of the loop. *)
Lemma notify_row_events grouped i row st :
  exists st' evs,
    notify_row env opts grouped i row st = (Ok tt, st')
    /\ trace st' = evs ++ trace st
    /\ Forall (notify_event opts grouped [row]) evs
    /\ (length (filter is_tweet evs) <= 2)%nat
    /\ s3_objects st' = s3_objects st.
Proof.
  assert (row ∈ [row]) as Hin by (by left).
  assert (exists st' evs,
            (Ok tt, st) = (@Ok unit tt, st') /\ trace st' = evs ++ trace st
            /\ Forall (notify_event opts grouped [row]) evs
            /\ (length (filter is_tweet evs) <= 2)%nat
            /\ s3_objects st' = s3_objects st) as Hskip.
  { exists st, []. repeat split; try done. simpl. lia. }
  unfold notify_row. destruct (_ <=? _)%Z eqn:Hmin; [|exact Hskip].
  apply Z.leb_le in Hmin.
  unfold try_except, mbind, M_bind, lift, log, sleep.
  destruct (get_tweet_body _ _ _ _) as [body|e] eqn:Hbody.
  - destruct (tweet opts) eqn:Htweet; [|exact Hskip].
    destruct (send_tweet_attempts body 1 1 st)
      as (r & st' & m & -> & Hm & _ & _ & _ & _ & Ht & Ho & _).
    eexists _, (EvSleep (between_tweets_time opts) :: EvCreateTweet body r
                  :: concat (replicate m [EvSleep 1; EvCreateTweet body false])).
    split; [reflexivity|]. cbn [record_event trace s3_objects]. rewrite Ht.
    split; [done|].
    assert (notify_event opts grouped [row] (EvCreateTweet body false)
            /\ notify_event opts grouped [row] (EvCreateTweet body r)) as [Hf Hr].
    { split; (split; [done|]); exists row; done. }
    split; [|split; [|done]].
    + constructor; [split; [done|by right]|]. constructor; [done|].
      apply Forall_concat_replicate.
      constructor; [split; [done|by left]|]. by constructor.
    + destruct m as [|[|m]]; simpl; lia.
  - exists (record_event (EvCouldNotProcess i row) st), [EvCouldNotProcess i row].
    split; [done|]. split; [done|]. split; [|split; [simpl; lia|done]].
    constructor; [|constructor]. split; [done|]. split; [done|]. by exists e.
Qed.

Lemma notify_event_mono grouped rows rows' ev :
  (forall r, r ∈ rows -> r ∈ rows') ->
  notify_event opts grouped rows ev -> notify_event opts grouped rows' ev.
Proof.
  intros Hsub. destruct ev; simpl; try done.
  - intros [? (row & ? & ?)]. split; [done|]. exists row. split; [auto|done].
  - intros (? & ?). split; [auto|done].
Qed.

Lemma notify_loop_events grouped rows : forall i st,
  exists st' evs,
    notify_loop env opts grouped i rows st = (Ok tt, st')
    /\ trace st' = evs ++ trace st
    /\ Forall (notify_event opts grouped rows) evs
    /\ (length (filter is_tweet evs) <= 2 * length rows)%nat
    /\ s3_objects st' = s3_objects st.
Proof.
  induction rows as [|row rows IH]; intros i st; simpl.
  - exists st, []. repeat split; try done.
  - unfold mbind, M_bind.
    destruct (notify_row_events grouped i row st) as (st1 & evs1 & -> & Ht1 & F1 & C1 & Ho1).
    destruct (IH (S i) st1) as (st2 & evs2 & -> & Ht2 & F2 & C2 & Ho2).
    exists st2, (evs2 ++ evs1). split; [done|].
    split; [by rewrite Ht2, Ht1, app_assoc|]. split; [|split; [|congruence]].
    + apply Forall_app. split.
      * eapply Forall_impl; [exact F2|]. intros ev. apply notify_event_mono.
        intros r Hr. by right.
      * eapply Forall_impl; [exact F1|]. intros ev. apply notify_event_mono.
        intros r ->%list_elem_of_singleton. by left.
    + rewrite filter_app, length_app. simpl. lia.
Qed.

Lemma notify_event_main grouped rows ev :
  notify_event opts grouped rows ev -> main_event opts ev.
Proof.
  destruct ev; simpl; try done.
  - intros [Ht [->| ->]]; [by left|by right].
  - intros [Ht (row & _ & _ & Hr)]. split; [done|].
    apply get_tweet_body_Ok in Hr as [rest ->]. by apply truncate_bound.
Qed.

(** The events of a whole run. *)
Lemma main_events st :
  exists evs,
    trace (snd (main to_numeric to_datetime env opts st)) = evs ++ trace st
    /\ Forall (main_event opts) evs.
Proof.
  set (b := bucket_name opts). set (k := records_file_name opts).
  pose proof (get_records_run env b k st) as Hload.
  destruct (get_records env b k st) as [[records|e] st1] eqn:Hrec;
    injection Hload as _ ->.
  2:{ rewrite (main_load_failure _ _ _ _ _ _ _ Hrec).
      exists [EvGetObject b k]. split; [done|]. by repeat constructor. }
  set (trimmed := trim_records (now env) (n_prev_days opts) records).
  destruct (get_latest_data_trace trimmed (record_event (EvGetObject b k) st))
    as [m Hfetch].
  destruct (get_latest_data to_numeric to_datetime env trimmed 10 _)
    as [latest st2] eqn:Hdata.
  cbn [snd record_event trace] in Hfetch.
  set (pre := concat (replicate m [EvHttpGet; EvSleep 1]) ++ [EvHttpGet; EvGetObject b k]).
  assert (Forall (main_event opts) pre) as Hpre.
  { apply Forall_app. split; [|by repeat constructor].
    apply Forall_concat_replicate. constructor; [done|]. constructor; [by left|done]. }
  assert (trace st2 = pre ++ trace st) as Ht2
    by (by unfold pre; rewrite Hfetch, <- app_assoc).
  rewrite (main_run _ _ _ _ _ _ _ _ _ Hrec Hdata).
  destruct latest as [[latest_df|]|e]; [|by exists pre|by exists pre].
  cbv zeta. destruct (s3_put_fault env).
  - eexists (_ :: pre). cbn [snd record_event trace]. rewrite Ht2.
    split; [reflexivity|]. by constructor.
  - match goal with |- context [notify_loop env opts ?g 0 ?rows ?s] =>
      destruct (notify_loop_events g rows 0 s) as (st3 & evs & -> & Ht3 & F3 & _)
    end.
    cbn [snd after_put trace] in *. rewrite Ht3, Ht2.
    eexists (evs ++ _ :: pre). split; [by rewrite <- app_assoc|].
    apply Forall_app. split; [|by constructor].
    eapply Forall_impl; [exact F3|]. intros ev. apply notify_event_main.
Qed.

(** Where a run leaves the blobs. *)
Lemma main_objects st :
  let key := (bucket_name opts, records_file_name opts) in
  let final := main to_numeric to_datetime env opts st in
  (fst final <> Ok 0%Z -> s3_objects (snd final) = s3_objects st)
  /\ (fst final = Ok 0%Z ->
      exists rows, s3_objects (snd final) = <[key := CsvBody rows]> (s3_objects st)).
Proof.
  intros key final. subst key final.
  pose proof (get_records_run env (bucket_name opts) (records_file_name opts) st)
    as Hload.
  destruct (get_records env _ _ st) as [[records|e] st1] eqn:Hrec;
    injection Hload as _ ->.
  2:{ rewrite (main_load_failure _ _ _ _ _ _ _ Hrec). by split. }
  pose proof (get_latest_data_follows to_numeric to_datetime env
                (trim_records (now env) (n_prev_days opts) records) 10
                (record_event (EvGetObject (bucket_name opts) (records_file_name opts)) st))
    as [Ho _].
  destruct (get_latest_data _ _ _ _ _ _) as [latest st2] eqn:Hdata.
  cbn [snd record_event s3_objects] in Ho.
  rewrite (main_run _ _ _ _ _ _ _ _ _ Hrec Hdata).
  destruct latest as [[latest_df|]|e]; [|by split|by split].
  cbv zeta. destruct (s3_put_fault env); [by split|].
  match goal with |- context [notify_loop env opts ?g 0 ?rows ?s] =>
    destruct (notify_loop_events g rows 0 s) as (st3 & evs & -> & _ & _ & _ & Ho3)
  end.
  cbn [fst snd after_put s3_objects] in *. split; [done|]. intros _.
  eexists. by rewrite Ho3, Ho.
Qed.

End TraceFacts.

(** ** Retention *)

Section AcrossRuns.

Lemma trim_records_filter now n_prev_days records_df :
  trim_records now n_prev_days records_df
  = filter (date_ge (now - timedelta_days n_prev_days)) records_df.
Proof. unfold trim_records. by destruct records_df. Qed.

End AcrossRuns.

(** ** Names, districts and amounts in the renderer *)

Section RenderMore.

Lemma append_nil_r (s : string) : s +:+ "" = s.
Proof.
  induction s as [|c s IH]; [done|].
  change (String c s +:+ "") with (String c (s +:+ "")). by rewrite IH.
Qed.

Lemma rev_app_append s : forall t, String.rev_app s t = String.rev s +:+ t.
Proof.
  unfold String.rev. induction s as [|a s IH]; intros t; [done|].
  cbn [String.rev_app]. rewrite (IH (String a t)), (IH (String a "")).
  by rewrite append_assoc.
Qed.

Lemma rev_cons_append c cur s :
  String.rev (String c cur) +:+ s = String.rev cur +:+ String c s.
Proof.
  unfold String.rev at 1. cbn [String.rev_app].
  by rewrite rev_app_append, append_assoc.
Qed.

Lemma split_from_nonempty sep : forall s skip cur, Str.split_from sep skip cur s <> [].
Proof.
  induction s as [|c s IH]; intros skip cur; simpl; [done|].
  destruct skip; [|apply IH]. destruct (Str.startswith sep (String c s)); [done|apply IH].
Qed.

Lemma split_from_no_sep sep : forall s cur,
  Str.contains sep s = false ->
  Str.split_from sep 0 cur s = [String.rev cur +:+ s].
Proof.
  induction s as [|c s IH]; intros cur H.
  - simpl. by rewrite append_nil_r.
  - rewrite contains_cons in H. apply orb_false_iff in H as [H1 H2].
    cbn [Str.split_from]. rewrite H1, IH by done. by rewrite rev_cons_append.
Qed.

Lemma split_no_sep sep s : Str.contains sep s = false -> Str.split sep s = [s].
Proof. intros H. unfold Str.split. by rewrite split_from_no_sep. Qed.

Lemma split_from_has_sep sep : sep <> "" -> forall s cur,
  Str.contains sep s = true -> (1 < length (Str.split_from sep 0 cur s))%nat.
Proof.
  intros Hsep. induction s as [|c s IH]; intros cur H.
  - simpl in H. rewrite orb_false_r in H. by destruct sep.
  - rewrite contains_cons in H. cbn [Str.split_from].
    destruct (Str.startswith sep (String c s)) eqn:E.
    + simpl. pose proof (split_from_nonempty sep s (String.length sep - 1) "") as Hne.
      destruct (Str.split_from sep _ _ s); [done|simpl; lia].
    + simpl in H. by apply IH.
Qed.

Lemma split_length sep s :
  sep <> "" -> (1 < length (Str.split sep s))%nat <-> Str.contains sep s = true.
Proof.
  intros Hsep. split.
  - intros H. destruct (Str.contains sep s) eqn:E; [done|].
    rewrite split_no_sep in H by done. simpl in H. lia.
  - by apply split_from_has_sep.
Qed.

Lemma split_last_first last first :
  has_char "," last = false -> has_char "," first = false ->
  Str.split ", " (last +:+ ", " +:+ first) = [last; first].
Proof.
  intros Hl Hf. unfold Str.split.
  assert (forall cur,
            Str.split_from ", " 0 cur (last +:+ ", " +:+ first)
            = [String.rev cur +:+ last; first]) as H; [|exact (H "")].
  induction last as [|c last IH]; intros cur.
  - rewrite append_nil_r. change ("" +:+ ", " +:+ first) with (String "," (String " " first)).
    cbn [Str.split_from Str.startswith String.length Nat.sub].
    rewrite !Ascii.eqb_refl. f_equal.
    rewrite split_from_no_sep by (by apply contains_no_first_char). done.
  - cbn [has_char] in Hl. apply orb_false_iff in Hl as [Hc Hl].
    change (String c last +:+ ", " +:+ first) with (String c (last +:+ ", " +:+ first)).
    cbn [Str.split_from Str.startswith]. rewrite Hc.
    rewrite IH by done. by rewrite rev_cons_append.
Qed.

(** *** The separators of an amount *)

Lemma remove_insert_commas s : remove_commas (Str.insert_commas s) = remove_commas s.
Proof.
  induction s as [|c s IH]; [done|]. cbn [Str.insert_commas remove_commas].
  destruct (_ && _); cbn [remove_commas]; rewrite ?Ascii.eqb_refl, IH; done.
Qed.

Lemma remove_commas_id s : has_char "," s = false -> remove_commas s = s.
Proof.
  induction s as [|c s IH]; [done|]. cbn [has_char remove_commas].
  intros [Hc Hs]%orb_false_iff. rewrite Ascii.eqb_sym, Hc. by rewrite IH.
Qed.

Lemma uint_no_comma d : has_char "," (NilEmpty.string_of_uint d) = false.
Proof. induction d; simpl; done. Qed.

Lemma of_int_no_comma n : has_char "," (Str.of_int n) = false.
Proof.
  unfold Str.of_int, NilZero.string_of_int, NilZero.string_of_uint.
  destruct (Z.to_int n) as [d|d]; destruct d; try done;
    simpl; try apply uint_no_comma.
Qed.

Lemma of_int_opp n : (n < 0)%Z -> Str.of_int n = "-" +:+ Str.of_int (- n).
Proof. by destruct n. Qed.

Lemma length_insert_commas s :
  String.length (Str.insert_commas s)
  = (String.length s + (String.length s - 1) / 3)%nat.
Proof.
  induction s as [|c s IH]; [done|]. cbn [Str.insert_commas String.length].
  destruct (_ && _) eqn:E; cbn [String.length]; rewrite IH; clear IH.
  - apply andb_true_iff in E as [E1 E2].
    apply Nat.ltb_lt in E1. apply Nat.eqb_eq in E2.
    replace (S (String.length s) - 1)%nat with (String.length s) by lia.
    generalize dependent (String.length s). intros n E1 E2.
    pose proof (Nat.div_mod_eq n 3). pose proof (Nat.div_mod_eq (n - 1) 3).
    pose proof (Nat.mod_upper_bound (n - 1) 3). lia.
  - replace (S (String.length s) - 1)%nat with (String.length s) by lia.
    apply andb_false_iff in E.
    generalize dependent (String.length s). intros n E.
    assert (n = 0 \/ n mod 3 <> 0)%nat as Hn.
    { destruct E as [E|E]; [left; apply Nat.ltb_ge in E; lia|right; by apply Nat.eqb_neq]. }
    pose proof (Nat.div_mod_eq n 3). pose proof (Nat.div_mod_eq (n - 1) 3).
    pose proof (Nat.mod_upper_bound (n - 1) 3). pose proof (Nat.mod_upper_bound n 3).
    destruct Hn as [->|Hn]; [done|]. lia.
Qed.


Lemma remove_commas_format_thousands n :
  remove_commas (Str.format_thousands n) = Str.of_int n.
Proof.
  unfold Str.format_thousands. destruct (n <? 0)%Z eqn:E.
  - apply Z.ltb_lt in E. rewrite (of_int_opp n E).
    change ("-" +:+ ?x) with (String "-" x). cbn [remove_commas].
    change (Ascii.eqb "-" ",") with false. cbv iota.
    rewrite remove_insert_commas, remove_commas_id; [done|apply of_int_no_comma].
  - rewrite remove_insert_commas, remove_commas_id; [done|apply of_int_no_comma].
Qed.

Lemma insert_commas_small s :
  (String.length s <= 3)%nat -> Str.insert_commas s = s.
Proof.
  destruct s as [|a [|b [|c [|d s]]]]; try done. simpl. lia.
Qed.

Lemma insert_commas_group s t :
  s <> "" -> String.length t = 3%nat ->
  Str.insert_commas (s +:+ t) = Str.insert_commas s +:+ "," +:+ t.
Proof.
  intros Hs Ht. induction s as [|c s IH]; [done|].
  change (String c s +:+ t) with (String c (s +:+ t)).
  cbn [Str.insert_commas]. rewrite length_append, Ht.
  change (String c ?x +:+ ?y) with (String c (x +:+ y)). f_equal.
  destruct s as [|c' s].
  - change ("" +:+ t) with t. rewrite (insert_commas_small t) by lia. done.
  - rewrite IH by done.
    replace ((String.length (String c' s) + 3) mod 3)%nat
      with (String.length (String c' s) mod 3)%nat
      by (rewrite <- (Nat.Div0.mod_add _ 1 3); f_equal; lia).
    assert ((0 <? String.length (String c' s) + 3)%nat = true) as -> by (apply Nat.ltb_lt; lia).
    assert ((0 <? String.length (String c' s))%nat = true) as -> by (apply Nat.ltb_lt; simpl; lia).
    cbn [andb]. destruct (_ =? 0)%nat; done.
Qed.

(** *** Which rows the renderer refuses *)

Lemma nth_error_1_split sep s :
  sep <> "" ->
  nth_error (Str.split sep s) 1 = None <-> Str.contains sep s = false.
Proof.
  intros Hsep. rewrite nth_error_None.
  pose proof (split_length sep s Hsep) as H.
  destruct (Str.contains sep s); split; intros; try done.
  - assert (1 < length (Str.split sep s))%nat by by apply H. lia.
  - destruct (decide (1 < length (Str.split sep s))%nat) as [Hl|Hl]; [|lia].
    by apply H in Hl.
Qed.

Lemma get_tweet_body_raises row sum_prev n_prev_days char_limit e :
  get_tweet_body row sum_prev n_prev_days char_limit = Raise e ->
  (e = IndexError
   /\ (Str.contains ", " (row_candname row) = false
       \/ (String.length (row_district row) < 3)%nat))
  \/ (e = UnboundLocalError
      /\ Str.contains ", " (row_candname row) = true
      /\ (3 <= String.length (row_district row))%nat
      /\ exists s, sum_prev = Some s /\ (s <= row_amount row)%Z).
Proof.
  unfold get_tweet_body.
  destruct (nth_error _ 1) as [firstname|] eqn:E1; cbn [mbind result_bind rbind].
  2:{ intros [= <-]. left. split; [done|]. left. by apply (nth_error_1_split ", "). }
  assert (Str.contains ", " (row_candname row) = true) as Hname.
  { destruct (Str.contains ", " (row_candname row)) eqn:E; [done|].
    apply (nth_error_1_split ", ") in E; [congruence|done]. }
  destruct (String.get 2 _) as [third|] eqn:E2; cbn [mbind result_bind rbind].
  2:{ intros [= <-]. left. split; [done|]. right. apply get_None in E2. lia. }
  assert (3 <= String.length (row_district row))%nat as Hdist.
  { destruct (decide (3 <= String.length (row_district row))%nat) as [|Hn]; [done|].
    assert (String.get 2 (row_district row) = None) as Hg by (apply get_None; lia).
    congruence. }
  destruct sum_prev as [s|].
  - destruct (row_amount row <? s)%Z eqn:E3.
    + destruct (char_limit <? _)%Z; cbn [mbind result_bind rbind]; done.
    + apply Z.ltb_ge in E3.
      destruct (char_limit <? _)%Z; cbn [mbind result_bind rbind]; [|done].
      intros [= <-]. right. repeat split; try done. by exists s.
  - destruct (char_limit <? _)%Z; cbn [mbind result_bind rbind]; done.
Qed.

Lemma get_tweet_body_IndexError row sum_prev n_prev_days char_limit :
  get_tweet_body row sum_prev n_prev_days char_limit = Raise IndexError
  <-> Str.contains ", " (row_candname row) = false
      \/ (String.length (row_district row) < 3)%nat.
Proof.
  split.
  - intros H. apply get_tweet_body_raises in H as [[_ H]|[? _]]; done.
  - intros [H|H]; [|by apply get_tweet_body_short_district].
    unfold get_tweet_body.
    apply (nth_error_1_split ", ") in H; [|done]. by rewrite H.
Qed.

(** *** The escaped name *)

Lemma escape_suffix_absent suffix replacement pac :
  Str.contains suffix pac = false -> escape_suffix suffix replacement pac = pac.
Proof. intros H. unfold escape_suffix. by rewrite H. Qed.

Lemma escape_pac_absent pac :
  Forall (fun suffix => Str.contains suffix pac = false) domain_suffixes ->
  escape_pac pac = pac.
Proof.
  intros H. unfold domain_suffixes in H.
  repeat match goal with H : Forall _ (_ :: _) |- _ => inversion_clear H end.
  unfold escape_pac.
  rewrite (escape_suffix_absent ".com") by done.
  rewrite (escape_suffix_absent ".org") by done.
  rewrite (escape_suffix_absent ".gov") by done.
  rewrite (escape_suffix_absent ".net") by done.
  by rewrite (escape_suffix_absent ".edu").
Qed.

(** *** The text of a well-formed row *)

Lemma printed_district_spec district third :
  String.get 2 district = Some third ->
  (if Ascii.eqb third "S" then Str.slice_to district 2 else district)
  = printed_district district.
Proof.
  intros H. unfold printed_district. rewrite H.
  destruct (Ascii.eqb third "S") eqn:E.
  - apply Ascii.eqb_eq in E. by subst.
  - apply Ascii.eqb_neq in E.
    destruct third as [[] [] [] [] [] [] [] []]; try done.
Qed.

End RenderMore.

(** ** The typed frame, read off the feed entries *)

Section NormalizeMore.

Variable to_numeric : string -> option Z.
Variable to_datetime : string -> option Z.

Lemma keep_key_columns_entry e :
  match keep_key_columns (cells_of_entry e) with
  | Some c =>
      has_key_fields e = true /\ amount c = a_amount e
      /\ date c = blank_to_na (a_date e)
  | None => has_key_fields e = false
  end.
Proof.
  unfold keep_key_columns, cells_of_entry, has_key_fields, blank_to_na.
  cbn [pacshort suppopp candname amount date].
  destruct (is_blank (a_pacshort e)), (is_blank (a_suppopp e)),
    (is_blank (a_candname e)), (is_blank (a_amount e)); done.
Qed.

Lemma dropna_entries entries :
  Forall2 (fun e c => keep_key_columns (cells_of_entry e) = Some c)
    (filter has_key_fields entries)
    (dropna_key_columns (map cells_of_entry entries)).
Proof.
  unfold dropna_key_columns. induction entries as [|e entries IH]; [constructor|].
  pose proof (keep_key_columns_entry e) as H. cbn [map omap list_omap].
  destruct (keep_key_columns (cells_of_entry e)) as [c|] eqn:E.
  - destruct H as (H & _). rewrite filter_cons_True by by rewrite H.
    by constructor.
  - rewrite filter_cons_False by (rewrite H; exact (fun x => x)). done.
Qed.

Lemma elem_of_dropna_entries entries c :
  c ∈ dropna_key_columns (map cells_of_entry entries)
  <-> exists e, e ∈ entries /\ keep_key_columns (cells_of_entry e) = Some c.
Proof.
  unfold dropna_key_columns. rewrite list_elem_of_omap. split.
  - intros (x & Hx & H). apply list_elem_of_fmap in Hx as (e & -> & He). eauto.
  - intros (e & He & H). exists (cells_of_entry e). split; [|done].
    apply list_elem_of_fmap. eauto.
Qed.

Lemma normalize_Ok_iff entries :
  (exists latest_df, normalize to_numeric to_datetime entries = Ok latest_df)
  <-> entries <> []
      /\ forall c, c ∈ dropna_key_columns (map cells_of_entry entries) ->
           to_numeric (amount c) <> None
           /\ forall s, date c = Some s -> to_datetime s <> None.
Proof.
  split.
  - intros (latest_df & H). split; [by destruct entries|].
    intros c Hc. split.
    + intros Hn.
      rewrite (normalize_conversion_failure to_numeric to_datetime entries c Hc) in H;
        [done|by left].
    + intros s Hs Hn.
      rewrite (normalize_conversion_failure to_numeric to_datetime entries c Hc) in H;
        [done|right; eauto].
  - intros (Hne & H). destruct entries as [|e entries]; [done|].
    rewrite normalize_unfold.
    set (kept := dropna_key_columns _) in *.
    destruct (convert_column (amount_to_numeric to_numeric) kept) as [l1|e1] eqn:E1;
      cbn [mbind result_bind rbind].
    + destruct (convert_column (date_to_datetime to_datetime) l1) as [l2|e2] eqn:E2;
        [eauto|].
      exfalso. apply convert_column_Raise in E2 as (x1 & Hx1 & Hraise).
      apply convert_column_Ok in E1.
      destruct (list_elem_of_lookup_1 _ _ Hx1) as (i & Hi).
      destruct (Forall2_lookup_r _ _ _ _ _ E1 Hi) as (c & Hc & Hconv).
      apply list_elem_of_lookup_2 in Hc. destruct (H c Hc) as (_ & Hd).
      unfold amount_to_numeric in Hconv.
      destruct (to_numeric (amount c)); [|done]. injection Hconv as <-.
      unfold date_to_datetime in Hraise. cbn [set_amount date] in Hraise.
      destruct (date c) as [s|] eqn:Es; [|done].
      specialize (Hd s eq_refl). by destruct (to_datetime s).
    + exfalso. apply convert_column_Raise in E1 as (c & Hc & Hraise).
      destruct (H c Hc) as (Hn & _). unfold amount_to_numeric in Hraise.
      by destruct (to_numeric (amount c)).
Qed.

Lemma normalize_typed entries latest_df :
  normalize to_numeric to_datetime entries = Ok latest_df ->
  Forall2 (typed_from to_numeric to_datetime) (filter has_key_fields entries) latest_df.
Proof.
  intros H. apply normalize_Ok in H.
  pose proof (dropna_entries entries) as Hk.
  revert latest_df H.
  induction Hk as [|e c es cs Hec Hk IH]; intros latest_df H.
  - inversion H. constructor.
  - inversion H as [|? f ? fs Hcf Hrest]; subst. constructor; [|by apply IH].
    by exists c.
Qed.

End NormalizeMore.

(** ** The fetch within a run *)

Section FetchFacts.

Lemma get_latest_expenditures_objects env n st payload st' :
  get_latest_expenditures env n st = (Ok payload, st') ->
  follows is_quiet st st'.
Proof.
  intros H. destruct (get_latest_expenditures_run env n st) as (r & st'' & E & F).
  rewrite H in E. by injection E as -> ->.
Qed.

End FetchFacts.

(** ** The entry point *)

Section Handler.

Variable to_numeric : string -> option Z.
Variable to_datetime : string -> option Z.
Variable env : Env.

Lemma lambda_handler_run st :
  lambda_handler to_numeric to_datetime env st =
  match main to_numeric to_datetime env default_options st with
  | (Ok _, st') => (Ok 200%Z, st')
  | (Raise e, st') => (Raise e, st')
  end.
Proof.
  unfold lambda_handler, mbind, M_bind.
  by destruct (main _ _ _ _ _) as [[?|?] ?].
Qed.

(** A run during which the feed never answers. *)
Lemma main_feed_outage opts st records st1 :
  get_records env (bucket_name opts) (records_file_name opts) st = (Ok records, st1) ->
  (forall i, (i < 10)%nat -> http_response env (http_calls st + i) = None) ->
  exists st',
    main to_numeric to_datetime env opts st = (Ok 1%Z, st')
    /\ s3_objects st' = s3_objects st
    /\ events_between st st'
       = concat (replicate 9 [EvHttpGet; EvSleep 1])
         ++ [EvHttpGet; EvGetObject (bucket_name opts) (records_file_name opts)].
Proof.
  intros Hrec Hout.
  pose proof (get_records_run env (bucket_name opts) (records_file_name opts) st) as Hload.
  rewrite Hrec in Hload. injection Hload as _ ->.
  destruct (get_json_attempts env 10 1
              (record_event (EvGetObject (bucket_name opts) (records_file_name opts)) st))
    as (data & st2 & m & Hjson & Hm & _ & Hdata & _ & Hlast & Ht & Ho & _).
  cbn [record_event http_calls trace s3_objects] in *.
  rewrite Hout in Hdata by lia. specialize (Hlast Hdata). subst m data.
  pose proof (get_latest_data_run to_numeric to_datetime env
                (trim_records (now env) (n_prev_days opts) records) 10 _ _ _ Hjson)
    as Hlatest.
  cbn [latest_data_of] in Hlatest.
  rewrite (main_run _ _ _ _ _ _ _ _ _ Hrec Hlatest).
  exists st2. split; [done|]. split; [done|].
  apply events_between_app. rewrite Ht. by rewrite <- app_assoc.
Qed.

End Handler.

(** * Further properties of the code *)

Section Further.

Import Reference.

(** ** The feed client *)

(** X1. [get_json] always returns. It makes one request and then, while
    the answer is missing, up to [n_retries - 1] more, each after a pause of
    [wait_time]; it returns the answer of its last request, which is the
    first answer that is not missing, or nothing when the attempts are used
    up; it touches neither the blobs nor the notification channel. *)
Theorem get_json_attempts_bounded env n_retries wait_time st :
  exists data st' m,
    get_json env n_retries wait_time st = (Ok data, st')
    /\ (m <= n_retries - 1)%nat
    /\ http_calls st' = (http_calls st + 1 + m)%nat
    /\ data = http_response env (http_calls st + m)
    /\ (forall i, (i < m)%nat -> http_response env (http_calls st + i) = None)
    /\ (data = None -> m = (n_retries - 1)%nat)
    /\ events_between st st'
       = concat (replicate m [EvHttpGet; EvSleep wait_time]) ++ [EvHttpGet]
    /\ s3_objects st' = s3_objects st
    /\ tweet_calls st' = tweet_calls st.
Proof.
  destruct (get_json_attempts env n_retries wait_time st)
    as (data & st' & m & H1 & H2 & H3 & H4 & H5 & H6 & H7 & H8 & H9).
  exists data, st', m. repeat (split; [assumption|]). split; [|by split].
  apply events_between_app. rewrite H7. by rewrite <- app_assoc.
Qed.

(** ** The notifier *)

(** X2. [send_tweet] always returns. It makes one delivery attempt and
    then, while the attempt fails, up to [n_retries] more, each after a pause
    of [wait_time]; every attempt but the last has failed, the result is that
    of the last attempt, and a failure is returned only when the retries are
    used up. *)
Theorem send_tweet_attempts_bounded env message n_retries wait_time st :
  exists r st' m,
    send_tweet env message n_retries wait_time st = (Ok r, st')
    /\ (m <= n_retries)%nat
    /\ tweet_calls st' = (tweet_calls st + 1 + m)%nat
    /\ r = create_tweet env (tweet_calls st + m) message
    /\ (forall i, (i < m)%nat -> create_tweet env (tweet_calls st + i) message = false)
    /\ (r = false -> m = n_retries)
    /\ events_between st st'
       = EvCreateTweet message r
           :: concat (replicate m [EvSleep wait_time; EvCreateTweet message false])
    /\ s3_objects st' = s3_objects st
    /\ http_calls st' = http_calls st.
Proof.
  destruct (send_tweet_attempts env message n_retries wait_time st)
    as (r & st' & m & H1 & H2 & H3 & H4 & H5 & H6 & H7 & H8 & H9).
  exists r, st', m. repeat (split; [assumption|]). split; [|by split].
  apply events_between_app. by rewrite H7.
Qed.

(** X3. The notification loop never raises and leaves the blobs alone. It
    makes at most two delivery attempts per row; every text it tries to
    deliver is the rendering of one of its rows that meets the minimum
    amount, and is tried only when the tweet option is on; the rows it
    reports as not processed are rows that meet the minimum amount and
    whose rendering raised. *)
Theorem notify_loop_sends_renderings env opts grouped rows i st :
  exists st' evs,
    notify_loop env opts grouped i rows st = (Ok tt, st')
    /\ trace st' = evs ++ trace st
    /\ Forall (notify_event opts grouped rows) evs
    /\ (length (filter is_tweet evs) <= 2 * length rows)%nat
    /\ s3_objects st' = s3_objects st.
Proof. apply notify_loop_events. Qed.

(** ** Aggregation *)

(** X4. Both grouped frames come out in strictly increasing order of
    their keys, so no key occurs twice. *)
Theorem grouped_frames_sorted records_df latest_df :
  StronglySorted (key_lt compare5) (grouped_records records_df)
  /\ NoDup (map fst (grouped_records records_df))
  /\ StronglySorted (key_lt compare6) (groupby_sum compare6 group_cols_note latest_df)
  /\ NoDup (map fst (groupby_sum compare6 group_cols_note latest_df)).
Proof.
  pose proof (groupby_sum_sorted compare5 group_cols records_df) as H5.
  pose proof (groupby_sum_sorted compare6 group_cols_note latest_df) as H6.
  split; [exact H5|]. split; [exact (NoDup_keys_sorted compare5 _ H5)|].
  split; [exact H6|exact (NoDup_keys_sorted compare6 _ H6)].
Qed.

(** X5. A key with its amount is in the grouped records exactly when some
    record has that key in its five group columns, all of them present, and
    the amount is the sum of the amounts of the records with that key; the
    grouped new contributions hold, for every key of six columns that some
    new contribution has, one row with the sum of those contributions. *)
Theorem grouped_frames_hold_group_sums records_df latest_df :
  (forall k s,
     (k, s) ∈ grouped_records records_df
     <-> (exists r, r ∈ records_df /\ group_cols r = Some k)
         /\ s = total_amount (filter (fun r => group_cols r = Some k) records_df))
  /\ (forall row,
        row ∈ grouped_latest latest_df
        <-> exists k6,
              (exists r, r ∈ latest_df /\ group_cols_note r = Some k6)
              /\ row = row_of_group
                         (k6, total_amount
                                (filter (fun r => group_cols_note r = Some k6)
                                   latest_df))).
Proof.
  split.
  - intros k s. apply (elem_of_groupby_sum compare5).
  - apply elem_of_grouped_latest.
Qed.

(** X6. The grouped frames do not depend on the order of the rows they
    are computed from. *)
Theorem grouped_frames_ignore_row_order df1 df2 :
  df1 ≡ₚ df2 ->
  grouped_records df1 = grouped_records df2
  /\ grouped_latest df1 = grouped_latest df2.
Proof.
  intros Hp. split.
  - by apply (groupby_sum_perm compare5).
  - unfold grouped_latest. f_equal. by apply (groupby_sum_perm compare6).
Qed.

Lemma grouped_frames_ignore_row_order_witness :
  [stored acme_fields; stored zenith_fields] ≡ₚ [stored zenith_fields; stored acme_fields]
  /\ grouped_records [stored acme_fields; stored zenith_fields]
     = grouped_records [stored zenith_fields; stored acme_fields].
Proof.
  assert ([stored acme_fields; stored zenith_fields]
          ≡ₚ [stored zenith_fields; stored acme_fields]) as H by apply perm_swap.
  split; [exact H|].
  exact (proj1 (grouped_frames_ignore_row_order _ _ H)).
Defined.

(** X7. Grouping loses no money: the amounts of a grouped frame add up to
    the amounts of the rows that have all their group columns; the rows with
    a group column missing are the only ones left out. *)
Theorem grouped_amounts_add_up records_df latest_df :
  total_grouped (grouped_records records_df)
  = total_amount (filter (fun r => is_Some (group_cols r)) records_df)
  /\ total_grouped (groupby_sum compare6 group_cols_note latest_df)
     = total_amount (filter (fun r => is_Some (group_cols_note r)) latest_df).
Proof.
  split.
  - apply (total_groupby_sum compare5).
  - apply (total_groupby_sum compare6).
Qed.

(** X8. With the record and the cumulative options on, the cumulative
    amount of every row of the run is found: the grouped store then has a
    group for the contributor, stance and recipient of the row, and the
    amount passed to the renderer is the sum of the stored records of the
    first such group, whose district and party need not be those of the
    row. *)
Theorem cumulative_amount_is_found opts records_df latest_df row :
  report_sum_contributions opts = true ->
  (forall r, r ∈ latest_df -> r ∈ records_df) ->
  row ∈ grouped_latest latest_df ->
  exists district party,
    let key := (row_pacshort row, row_suppopp row, row_candname row, district, party) in
    sum_contribution_for opts (grouped_records records_df) row
    = Some (total_amount (filter (fun r => group_cols r = Some key) records_df))
    /\ exists r, r ∈ records_df /\ group_cols r = Some key.
Proof.
  intros Hreport Hsub Hrow.
  apply elem_of_grouped_latest in Hrow as (k6 & (r & Hr & Hk6) & ->).
  pose proof (group_cols_of_note _ _ Hk6) as Hk5.
  destruct k6 as [[[[[p s] n] d] q] purpose]. cbn [fst] in Hk5.
  assert (((p, s, n, d, q),
           total_amount (filter (fun r => group_cols r = Some (p, s, n, d, q)) records_df))
          ∈ match_row (grouped_records records_df)
              (row_of_group ((p, s, n, d, q, purpose),
                 total_amount (filter (fun r => group_cols_note r
                                               = Some (p, s, n, d, q, purpose)) latest_df))))
    as Hin.
  { unfold match_row. apply list_elem_of_filter. split.
    - cbn [fst row_of_group row_pacshort row_suppopp row_candname].
      by rewrite !bool_decide_eq_true_2.
    - apply (elem_of_groupby_sum compare5). split; [|done]. eauto. }
  unfold sum_contribution_for. rewrite Hreport.
  destruct (match_row _ _) as [|[k5 s5] rest] eqn:E; [by apply elem_of_nil in Hin|].
  assert ((k5, s5) ∈ match_row (grouped_records records_df)
            (row_of_group ((p, s, n, d, q, purpose),
               total_amount (filter (fun r => group_cols_note r
                                             = Some (p, s, n, d, q, purpose)) latest_df))))
    as Hhead by (rewrite E; by left).
  unfold match_row in Hhead. apply list_elem_of_filter in Hhead as [Hm Hg].
  destruct k5 as [[[[p' s'] n'] d'] q'].
  cbn [fst row_of_group row_pacshort row_suppopp row_candname] in Hm.
  apply andb_prop_elim in Hm as [Hm Hn]. apply andb_prop_elim in Hm as [Hp Hs].
  apply bool_decide_unpack in Hp, Hs, Hn. subst p' s' n'.
  apply (elem_of_groupby_sum compare5) in Hg as [Hex ->].
  exists d', q'. cbn [snd row_of_group row_pacshort row_suppopp row_candname].
  by split.
Qed.

Lemma cumulative_amount_is_found_witness :
  exists district party,
    let key := ("Zenith Fund", "Opposes", "Jones, Mary", district, party) in
    sum_contribution_for default_options
      (grouped_records [stored acme_fields; stored zenith_fields])
      {| row_pacshort := "Zenith Fund"; row_suppopp := "Opposes";
         row_candname := "Jones, Mary"; row_district := "TX07"; row_party := "R";
         row_note := "Mailers"; row_amount := 1200 |}
    = Some (total_amount (filter (fun r => group_cols r = Some key)
                            [stored acme_fields; stored zenith_fields]))
    /\ exists r, r ∈ [stored acme_fields; stored zenith_fields]
                 /\ group_cols r = Some key.
Proof.
  apply (cumulative_amount_is_found default_options
           [stored acme_fields; stored zenith_fields] [stored zenith_fields]
           {| row_pacshort := "Zenith Fund"; row_suppopp := "Opposes";
              row_candname := "Jones, Mary"; row_district := "TX07"; row_party := "R";
              row_note := "Mailers"; row_amount := 1200 |}).
  - reflexivity.
  - intros r Hr. apply list_elem_of_singleton in Hr as ->.
    apply elem_of_cons. right. apply elem_of_cons. by left.
  - vm_compute. apply list_elem_of_In. left. reflexivity.
Defined.

(** ** Deduplication and retention *)

(** X9. The new contributions are the fresh rows that no record of the
    store equals on the feed-sourced fields, each as many times as the feed
    has it and each with the timestamp of the run, put in order: by date,
    earliest first and those without a date last, and by decreasing amount
    within a date. *)
Theorem new_contributions_sorted stamp latest_df records_df :
  StronglySorted (fun a b => sort_before a b = true)
    (new_contributions stamp latest_df records_df)
  /\ new_contributions stamp latest_df records_df
     ≡ₚ map (fun l => {| fields := l; timestamp := Some stamp |})
          (filter (fun l => Forall (fun r => fields r <> l) records_df) latest_df).
Proof.
  split; [|apply new_contributions_perm].
  unfold new_contributions.
  destruct (map fst (filter is_left_only (merge_left latest_df records_df)))
    as [|c new_df]; [constructor|].
  cbn [length Nat.ltb Nat.leb]. apply sort_values_sorted.
Qed.

(** X10. Once the new contributions of a feed are appended to the store,
    the same feed has nothing new in it, whenever it is looked at again. *)
Theorem recorded_contributions_are_not_new stamp1 stamp2 latest_df records_df :
  new_contributions stamp2 latest_df
    (records_df ++ new_contributions stamp1 latest_df records_df) = [].
Proof.
  apply new_contributions_subset. intros l Hl.
  destruct (decide (Forall (fun r => fields r <> l) records_df)) as [Hnew|Hold].
  - exists {| fields := l; timestamp := Some stamp1 |}. split; [|done].
    apply elem_of_app. right. apply elem_of_new_contributions.
    rewrite Forall_forall in Hnew. done.
  - apply not_Forall_Exists in Hold; [|apply _].
    apply Exists_exists in Hold as (r & Hr & Hf). exists r.
    split; [apply elem_of_app; by left|].
    simpl in Hf. by destruct (decide (fields r = l)).
Qed.

(** X11. A fresh record without a date is new on every run, whatever the
    store holds: retention has removed every stored record without a date
    before the feed is compared with the store. *)
Theorem undated_contribution_is_always_new stamp now n_prev_days latest_df records_df l :
  l ∈ latest_df -> date l = None ->
  {| fields := l; timestamp := Some stamp |}
  ∈ new_contributions stamp latest_df (trim_records now n_prev_days records_df).
Proof.
  intros Hl Hd. apply elem_of_new_contributions. split; [done|]. split; [|done].
  intros r Hr E. apply elem_of_trim_records in Hr as (_ & d & Hdate & _).
  simpl in E. rewrite E in Hdate. congruence.
Qed.

Lemma undated_contribution_is_always_new_witness :
  {| fields := undated_fields; timestamp := Some march_10 |}
  ∈ new_contributions march_10 [acme_fields; undated_fields]
      (trim_records march_10 30 [stored undated_fields; stored acme_fields]).
Proof.
  apply undated_contribution_is_always_new.
  - apply elem_of_cons. right. apply elem_of_cons. by left.
  - reflexivity.
Defined.

(** X12. Trimming at a later time what was trimmed at an earlier time
    gives what trimming the untrimmed store at the later time gives: no
    record is lost by the trimming of earlier runs. *)
Theorem trim_records_at_later_time now1 now2 n_prev_days records_df :
  (now1 <= now2)%Z ->
  trim_records now2 n_prev_days (trim_records now1 n_prev_days records_df)
  = trim_records now2 n_prev_days records_df.
Proof.
  intros Hle. rewrite !trim_records_filter.
  apply list_filter_filter_l. intros r. unfold date_ge.
  destruct (date (fields r)) as [d|]; [|done].
  rewrite !Is_true_true, !Z.leb_le. lia.
Qed.

Lemma trim_records_at_later_time_witness :
  trim_records march_10 3 (trim_records march_5 3 [stored acme_fields; stored zenith_fields])
  = trim_records march_10 3 [stored acme_fields; stored zenith_fields].
Proof.
  apply trim_records_at_later_time. vm_compute. discriminate.
Defined.

(** ** The typed frame *)

(** X13. Normalisation returns a frame exactly when the feed has an entry
    and, among the entries that have their four key fields, every amount
    converts and every date that is not blank converts; the frame then has
    one row for each of these entries, in the order of the feed, and the
    entries with a blank key field are the only ones left out. *)
Theorem normalize_returns_typed_rows to_numeric to_datetime entries :
  ((exists latest_df, normalize to_numeric to_datetime entries = Ok latest_df)
   <-> entries <> []
       /\ forall e, e ∈ entries -> has_key_fields e = true ->
            to_numeric (a_amount e) <> None
            /\ (is_blank (a_date e) = false -> to_datetime (a_date e) <> None))
  /\ (forall latest_df,
        normalize to_numeric to_datetime entries = Ok latest_df ->
        Forall2 (typed_from to_numeric to_datetime)
          (filter has_key_fields entries) latest_df).
Proof.
  split; [|apply normalize_typed].
  rewrite normalize_Ok_iff. split; intros [Hne H]; (split; [done|]).
  - intros e He Hkey. pose proof (keep_key_columns_entry e) as Hk.
    destruct (keep_key_columns (cells_of_entry e)) as [c|] eqn:E; [|congruence].
    destruct Hk as (_ & Ha & Hd).
    destruct (H c) as [Hn Hdate]; [apply elem_of_dropna_entries; eauto|].
    rewrite Ha in Hn. split; [done|]. intros Hb. apply Hdate.
    rewrite Hd. unfold blank_to_na. by rewrite Hb.
  - intros c (e & He & E)%elem_of_dropna_entries.
    pose proof (keep_key_columns_entry e) as Hk. rewrite E in Hk.
    destruct Hk as (Hkey & Ha & Hd). destruct (H e He Hkey) as [Hn Hdate].
    rewrite Ha. split; [done|]. intros s Hs. rewrite Hd in Hs.
    unfold blank_to_na in Hs. destruct (is_blank (a_date e)) eqn:Hb; [done|].
    injection Hs as <-. by apply Hdate.
Qed.

(** ** The renderer *)

(** X14. The renderer raises [IndexError] exactly on a row whose
    recipient name has no [", "] in it or whose district code has fewer than
    three characters; the one other exception it can raise is the read of an
    unbound local, and only on a row with a name and a district that pass,
    given a prior amount that does not exceed the amount of the row. *)
Theorem get_tweet_body_exceptions row sum_prev n_prev_days char_limit :
  (get_tweet_body row sum_prev n_prev_days char_limit = Raise IndexError
   <-> Str.contains ", " (row_candname row) = false
       \/ (String.length (row_district row) < 3)%nat)
  /\ (forall e,
        get_tweet_body row sum_prev n_prev_days char_limit = Raise e ->
        e <> IndexError ->
        e = UnboundLocalError
        /\ Str.contains ", " (row_candname row) = true
        /\ (3 <= String.length (row_district row))%nat
        /\ exists s, sum_prev = Some s /\ (s <= row_amount row)%Z).
Proof.
  split; [apply get_tweet_body_IndexError|].
  intros e H Hne. by apply get_tweet_body_raises in H as [[? _]|?].
Qed.

(** X15. For a row whose recipient is written ["last, first"], whose
    district code has three characters or more, and without a prior amount,
    the text is the full sentence, with the first name before the last name,
    the amount with its thousands separators, the purpose and the stance in
    lower case, the stance without its last letter, and the district code
    cut to two characters when its third is ["S"], provided the sentence is
    within the limit. *)
Theorem get_tweet_body_of_well_formed_row row last first n_prev_days char_limit :
  row_candname row = last +:+ ", " +:+ first ->
  has_char "," last = false -> has_char "," first = false ->
  (3 <= String.length (row_district row))%nat ->
  let body :=
    primary_sentence (escape_pac (row_pacshort row))
      (Str.format_thousands (row_amount row)) (Str.lower (row_note row))
      (Str.lower (Str.drop_last (row_suppopp row))) first last (row_party row)
      ("-" +:+ printed_district (row_district row)) in
  (Str.len body <= char_limit)%Z ->
  get_tweet_body row None n_prev_days char_limit = Ok body.
Proof.
  intros Hname Hl Hf Hd body Hlen. unfold get_tweet_body.
  rewrite Hname, split_last_first by done. cbn [nth_error nth mbind result_bind rbind].
  destruct (String.get 2 (row_district row)) as [third|] eqn:E.
  2:{ apply get_None in E. lia. }
  cbn [mbind result_bind rbind]. rewrite (printed_district_spec _ _ E).
  fold body. apply Z.ltb_ge in Hlen. rewrite Hlen.
  cbn [mbind result_bind rbind]. by rewrite Hlen.
Qed.

Lemma get_tweet_body_of_well_formed_row_witness :
  get_tweet_body acme_row None 30 280
  = Ok (primary_sentence "Acme dot com PAC" "5,000" "tv ads" "support" "John" "Smith"
          "D" "-CA").
Proof.
  apply (get_tweet_body_of_well_formed_row acme_row "Smith" "John" 30 280).
  - reflexivity.
  - reflexivity.
  - reflexivity.
  - simpl. lia.
  - vm_compute. discriminate.
Defined.

(** X16. Escaping an escaped contributor name changes nothing. *)
Theorem escape_pac_idempotent pac : escape_pac (escape_pac pac) = escape_pac pac.
Proof. apply escape_pac_absent, escape_pac_no_suffix. Qed.

(** X17. The formatted amount is the decimal numeral of the amount with
    separators put in: taking the commas out gives the numeral back; the
    separators make up one comma for every three digits after the first;
    and each comma stands before a group of three digits, counted from the
    right. *)
Theorem format_thousands_groups_digits :
  (forall n, remove_commas (Str.format_thousands n) = Str.of_int n)
  /\ (forall n, (0 <= n)%Z ->
        String.length (Str.format_thousands n)
        = (String.length (Str.of_int n) + (String.length (Str.of_int n) - 1) / 3)%nat)
  /\ (forall s t, s <> "" -> String.length t = 3%nat ->
        Str.insert_commas (s +:+ t) = Str.insert_commas s +:+ "," +:+ t)
  /\ (forall s, (String.length s <= 3)%nat -> Str.insert_commas s = s).
Proof.
  split; [apply remove_commas_format_thousands|]. split.
  - intros n Hn. unfold Str.format_thousands.
    assert ((n <? 0)%Z = false) as -> by by apply Z.ltb_ge.
    apply length_insert_commas.
  - split; [apply insert_commas_group|apply insert_commas_small].
Qed.

(** ** Whole runs *)

(** X19. Whatever a run meets and however it ends, what it does lies
    within its options: the one object it reads or writes is the records
    file of its bucket, it pauses for one second or for the time between
    tweets, it attempts a delivery only with the tweet option on, and every
    text it tries to deliver is at most 280 characters long. *)
Theorem main_acts_within_its_options to_numeric to_datetime env opts st :
  Forall (main_event opts)
    (events_between st (snd (main to_numeric to_datetime env opts st))).
Proof.
  destruct (main_events to_numeric to_datetime env opts st) as (evs & Ht & F).
  by rewrite (events_between_app _ _ _ Ht).
Qed.

(** X20. A run with the tweet option off makes no delivery attempt. *)
Theorem dry_run_sends_nothing to_numeric to_datetime env opts st :
  tweet opts = false ->
  Forall (fun ev => is_tweet ev = false)
    (events_between st (snd (main to_numeric to_datetime env opts st))).
Proof.
  intros Hoff.
  destruct (main_events to_numeric to_datetime env opts st) as (evs & Ht & F).
  rewrite (events_between_app _ _ _ Ht).
  eapply Forall_impl; [exact F|]. intros [] Hev; try done.
  destruct Hev as [Hon _]. congruence.
Qed.

Lemma dry_run_sends_nothing_witness :
  let quiet := {| bucket_name := "pac-watch-records"; records_file_name := "records.csv";
                  min_report_amt := 0; between_tweets_time := 5; n_prev_days := 30;
                  tweet := false; record := true; report_sum_contributions := true |} in
  let env := world None None (feed_of [acme; zenith]) (fun _ _ => true) in
  Forall (fun ev => is_tweet ev = false)
    (events_between (start ∅) (snd (run env quiet (start ∅)))).
Proof.
  intros quiet env.
  apply (dry_run_sends_nothing decimal_amount iso_date env quiet (start ∅)).
  reflexivity.
Defined.

(** X21. Whatever a run meets and however it ends, every object of the
    bucket other than the records file is as it was before the run. *)
Theorem main_leaves_other_objects to_numeric to_datetime env opts st other :
  other <> (bucket_name opts, records_file_name opts) ->
  s3_objects (snd (main to_numeric to_datetime env opts st)) !! other
  = s3_objects st !! other.
Proof.
  intros Hne.
  destruct (main_objects to_numeric to_datetime env opts st) as [Hkeep Hput].
  destruct (fst (main to_numeric to_datetime env opts st)) as [z|e] eqn:E.
  - destruct (decide (z = 0%Z)) as [->|Hz].
    + destruct (Hput eq_refl) as [rows ->]. by rewrite lookup_insert_ne.
    + rewrite Hkeep; [done|]. by intros [= ?].
  - by rewrite Hkeep.
Qed.

Lemma main_leaves_other_objects_witness :
  let env := world None None (feed_of [acme; zenith]) (fun _ _ => true) in
  s3_objects (snd (run env default_options (start bucket_with_history))) !! other_key
  = s3_objects (start bucket_with_history) !! other_key.
Proof.
  intros env.
  apply (main_leaves_other_objects decimal_amount iso_date env default_options
           (start bucket_with_history) other_key).
  discriminate.
Defined.

(** X22. A run that loads a store holding, for every fresh row of the
    feed, a record equal to it on the feed-sourced fields, with a date
    within the window, finds nothing new: it makes no delivery attempt, and
    what it writes back is the store it loaded, trimmed to the window,
    whether the record option is on or off. *)
Theorem covered_feed_run_is_silent to_numeric to_datetime env opts
    st records st1 entries st2 latest_df :
  get_records env (bucket_name opts) (records_file_name opts) st = (Ok records, st1) ->
  get_latest_expenditures env 10 st1 = (Ok (Some (JsonDict (Some entries))), st2) ->
  normalize to_numeric to_datetime entries = Ok latest_df ->
  (forall l, l ∈ latest_df ->
     exists r d, r ∈ records /\ fields r = l /\ date l = Some d
                 /\ (now env - timedelta_days (n_prev_days opts) <= d)%Z) ->
  let kept := trim_records (now env) (n_prev_days opts) records in
  let final := main to_numeric to_datetime env opts st in
  Forall (fun ev => is_tweet ev = false) (events_between st (snd final))
  /\ match s3_put_fault env with
     | None =>
         fst final = Ok 0%Z
         /\ s3_objects (snd final)
            = <[(bucket_name opts, records_file_name opts) := CsvBody kept]>
                (s3_objects st)
     | Some e => fst final = Raise e /\ s3_objects (snd final) = s3_objects st
     end.
Proof.
  intros Hrec Hfeed Hnorm Hcovered kept final.
  pose proof (get_records_run env (bucket_name opts) (records_file_name opts) st)
    as Hload.
  rewrite Hrec in Hload. injection Hload as _ ->.
  pose proof (get_latest_expenditures_objects _ _ _ _ _ Hfeed) as [Ho (evs & Ht & Fq)].
  cbn [record_event s3_objects trace] in Ho, Ht.
  pose proof (get_latest_data_run to_numeric to_datetime env kept 10 _ _ _ Hfeed)
    as Hdata.
  cbn [latest_data_of] in Hdata. rewrite Hnorm in Hdata.
  assert (new_contributions (now env) latest_df kept = []) as Hnone.
  { apply new_contributions_subset. intros l Hl.
    destruct (Hcovered l Hl) as (r & d & Hr & Hrl & Hd & Hle).
    exists r. split; [|done]. apply elem_of_trim_records. split; [done|].
    exists d. by rewrite Hrl. }
  rewrite Hnone in Hdata.
  subst final. rewrite (main_run _ _ _ _ _ _ _ _ _ Hrec Hdata). cbv zeta.
  fold kept.
  assert (store_to_write opts kept [] = kept) as ->
    by (unfold store_to_write; destruct (record opts); by rewrite ?app_nil_r).
  assert (Forall (fun ev => is_tweet ev = false)
            (evs ++ [EvGetObject (bucket_name opts) (records_file_name opts)])) as Fe.
  { apply Forall_app. split; [|by repeat constructor].
    eapply Forall_impl; [exact Fq|]. intros ev. unfold is_quiet.
    by destruct (is_put ev), (is_tweet ev). }
  destruct (s3_put_fault env).
  - cbn [fst snd record_event s3_objects]. split; [|by split].
    rewrite (events_between_app st _
               (EvPutObject (bucket_name opts) (records_file_name opts) kept
                  :: evs ++ [EvGetObject (bucket_name opts) (records_file_name opts)])).
    + by constructor.
    + cbn [trace record_event app]. by rewrite Ht, <- app_assoc.
  - change (grouped_latest []) with (@nil Row). cbn [notify_loop].
    cbn [fst snd mret M_ret after_put s3_objects]. split; [|by rewrite Ho].
    rewrite (events_between_app st _
               (EvPutObject (bucket_name opts) (records_file_name opts) kept
                  :: evs ++ [EvGetObject (bucket_name opts) (records_file_name opts)])).
    + by constructor.
    + cbn [trace after_put app]. by rewrite Ht, <- app_assoc.
Qed.

Lemma covered_feed_run_is_silent_witness :
  let env := world None None (feed_of [acme]) (fun _ _ => true) in
  let final := run env default_options (start bucket_with_history) in
  Forall (fun ev => is_tweet ev = false)
    (events_between (start bucket_with_history) (snd final))
  /\ fst final = Ok 0%Z
  /\ s3_objects (snd final)
     = <[store_key := CsvBody (trim_records march_10 30 [stored acme_fields])]>
         (s3_objects (start bucket_with_history)).
Proof.
  intros env final.
  set (loaded := get_records env (bucket_name default_options)
                   (records_file_name default_options) (start bucket_with_history)).
  assert (loaded = (Ok [stored acme_fields], snd loaded)) as Hload
    by (vm_compute; reflexivity).
  set (fetched := get_latest_expenditures env 10 (snd loaded)).
  assert (fetched = (Ok (Some (JsonDict (Some [acme]))), snd fetched))
    as Hfetch by (vm_compute; reflexivity).
  assert (normalize decimal_amount iso_date [acme] = Ok [acme_fields]) as Hnorm
    by (vm_compute; reflexivity).
  assert (forall l, l ∈ [acme_fields] ->
            exists r d, r ∈ [stored acme_fields] /\ fields r = l /\ date l = Some d
                        /\ (now env - timedelta_days (n_prev_days default_options)
                            <= d)%Z) as Hcovered.
  { intros l Hl. apply list_elem_of_singleton in Hl as ->.
    exists (stored acme_fields). eexists. split; [by left|]. split; [reflexivity|].
    split; [vm_compute; reflexivity|vm_compute; discriminate]. }
  exact (covered_feed_run_is_silent decimal_amount iso_date env default_options
           (start bucket_with_history) _ _ _ _ _ Hload Hfetch Hnorm Hcovered).
Defined.

(** X23. A run ends with an exception only where the load of the store,
    [get_latest_data] or the write of the store raised: it ends with that
    exception, in the state that call left. Nothing that is raised while a
    row is rendered or sent ends a run, and a run that ends with an
    exception has made no delivery attempt. *)
Theorem main_exceptions to_numeric to_datetime env opts st e st' :
  main to_numeric to_datetime env opts st = (Raise e, st') ->
  let b := bucket_name opts in
  let k := records_file_name opts in
  (get_records env b k st = (Raise e, st')
   \/ exists records st1,
        get_records env b k st = (Ok records, st1)
        /\ let trimmed := trim_records (now env) (n_prev_days opts) records in
           (get_latest_data to_numeric to_datetime env trimmed 10 st1 = (Raise e, st')
            \/ exists latest_df st2,
                 get_latest_data to_numeric to_datetime env trimmed 10 st1
                 = (Ok (Some latest_df), st2)
                 /\ write_records env (store_to_write opts trimmed latest_df) b k st2
                    = (Raise e, st')))
  /\ Forall (fun ev => is_tweet ev = false) (events_between st st').
Proof.
  intros Hmain b k. subst b k.
  pose proof (get_records_run env (bucket_name opts) (records_file_name opts) st)
    as Hload.
  destruct (get_records env _ _ st) as [[records|e0] st1] eqn:Hrec;
    injection Hload as _ ->.
  - pose proof (get_latest_data_follows to_numeric to_datetime env
                  (trim_records (now env) (n_prev_days opts) records) 10
                  (record_event
                     (EvGetObject (bucket_name opts) (records_file_name opts)) st))
      as [_ (evs & Ht & Fq)].
    destruct (get_latest_data _ _ _ _ _ _) as [latest st2] eqn:Hdata.
    cbn [snd record_event trace] in Ht.
    assert (Forall (fun ev => is_tweet ev = false)
              (evs ++ [EvGetObject (bucket_name opts) (records_file_name opts)])) as Fe.
    { apply Forall_app. split; [|by repeat constructor].
      eapply Forall_impl; [exact Fq|]. intros ev. unfold is_quiet.
      by destruct (is_put ev), (is_tweet ev). }
    rewrite (main_run _ _ _ _ _ _ _ _ _ Hrec Hdata) in Hmain.
    destruct latest as [[latest_df|]|e1]; [| done |].
    + cbv zeta in Hmain. destruct (s3_put_fault env) as [e'|] eqn:Hput; [|done].
      injection Hmain as -> <-. split.
      * right. eexists _, _. split; [done|]. right. exists latest_df, st2.
        split; [done|]. by rewrite write_records_run, Hput.
      * rewrite (events_between_app st _
                   (EvPutObject (bucket_name opts) (records_file_name opts)
                      (store_to_write opts
                         (trim_records (now env) (n_prev_days opts) records) latest_df)
                      :: evs ++ [EvGetObject (bucket_name opts)
                                   (records_file_name opts)])).
        -- by constructor.
        -- cbn [trace record_event app]. by rewrite Ht, <- app_assoc.
    + injection Hmain as -> <-. split.
      * right. eexists _, _. split; [done|]. by left.
      * rewrite (events_between_app st _
                   (evs ++ [EvGetObject (bucket_name opts) (records_file_name opts)]));
          [done|]. by rewrite Ht, <- app_assoc.
  - rewrite (main_load_failure _ _ _ _ _ _ _ Hrec) in Hmain.
    injection Hmain as -> <-. split; [by left|].
    rewrite (events_between_app st _
               [EvGetObject (bucket_name opts) (records_file_name opts)]);
      [by repeat constructor|done].
Qed.

Lemma main_exceptions_witness :
  let env := world None (Some BotoCoreError) (feed_of [acme]) (fun _ _ => true) in
  let final := main decimal_amount iso_date env default_options (start ∅) in
  fst final = Raise BotoCoreError
  /\ Forall (fun ev => is_tweet ev = false) (events_between (start ∅) (snd final)).
Proof.
  intros env final.
  assert (final = (Raise BotoCoreError, snd final)) as Hrun by (vm_compute; reflexivity).
  split; [by rewrite Hrun|].
  exact (proj2 (main_exceptions decimal_amount iso_date env default_options (start ∅)
                  _ _ Hrun)).
Defined.

(** ** The entry point *)

(** X24. The invocation returns the status 200 whenever the run returns,
    whatever the run returns. So it does when the feed never answers: the
    run then makes its ten requests, one second apart, writes nothing,
    sends nothing, returns 1, and the invocation still reports 200. *)
Theorem lambda_handler_reports_200_on_outage to_numeric to_datetime env st records st1 :
  get_records env "pac-watch-records" "records.csv" st = (Ok records, st1) ->
  (forall i, (i < 10)%nat -> http_response env (http_calls st + i) = None) ->
  exists st',
    main to_numeric to_datetime env default_options st = (Ok 1%Z, st')
    /\ lambda_handler to_numeric to_datetime env st = (Ok 200%Z, st')
    /\ s3_objects st' = s3_objects st
    /\ events_between st st'
       = concat (replicate 9 [EvHttpGet; EvSleep 1])
         ++ [EvHttpGet; EvGetObject "pac-watch-records" "records.csv"].
Proof.
  intros Hrec Hout.
  destruct (main_feed_outage to_numeric to_datetime env default_options st records st1
              Hrec Hout) as (st' & Hmain & Ho & Hev).
  exists st'. split; [done|]. split; [|by split].
  by rewrite lambda_handler_run, Hmain.
Qed.

Lemma lambda_handler_reports_200_on_outage_witness :
  let env := world None None (fun _ => None) (fun _ _ => true) in
  exists st',
    main decimal_amount iso_date env default_options (start bucket_with_history)
    = (Ok 1%Z, st')
    /\ lambda_handler decimal_amount iso_date env (start bucket_with_history)
       = (Ok 200%Z, st')
    /\ s3_objects st' = s3_objects (start bucket_with_history)
    /\ events_between (start bucket_with_history) st'
       = concat (replicate 9 [EvHttpGet; EvSleep 1])
         ++ [EvHttpGet; EvGetObject "pac-watch-records" "records.csv"].
Proof.
  intros env.
  set (loaded := get_records env "pac-watch-records" "records.csv"
                   (start bucket_with_history)).
  assert (loaded = (Ok [stored acme_fields], snd loaded)) as Hload
    by (vm_compute; reflexivity).
  apply (lambda_handler_reports_200_on_outage decimal_amount iso_date env
           (start bucket_with_history) _ _ Hload).
  intros i _. reflexivity.
Defined.

End Further.
